(** * Sev-1 incident responder (src/sev_one_ticket): a shallow embedding

    The development follows the four Python modules of the package, after
    what they need of the language and its libraries:
    - [Py]         the handful of Python built-ins the code relies on
                   (dict [get], truthiness, [str()], [rstrip], [join]);
    - [Urllib]     [urllib.parse.quote_plus], used by [room_url];
    - [Effects]    what the package prints, awaits and sends;
    - [Meeting]    meeting.py: [JitsiMeeting], [room_url] and the coroutine
                   [start_bot_and_hold] as a resumable state machine;
    - [Asyncio]    the part of the event loop the agent uses: tasks that are
                   created, resumed at their await points and cancelled;
    - [Env]        the settings read from the environment, and the inputs
                   the package does not control (random bytes, clock, mail
                   server);
    - [EmailUtils] email_utils.py: [create_ics], [send_email],
                   [send_invites_with_ics];
    - [Agents]     agents.py: [IncidentResponderAgent.handle_incident];
    - [App]        app.py: the [/ticket] endpoint [create_ticket].

    Strings are the UTF-8 bytes of the Python [str]. Effects are explicit:
    every function that prints, talks to SMTP or touches the browser returns
    the list of events it caused, in program order. Python 3.8 or later is
    assumed (see [exc]); the email package is the one of CPython 3.11. The
    forwarding of the page's console messages (meeting.py:44) is left out:
    what a page logs is not the package's doing. *)

From Stdlib Require Import ZArith NArith Ascii String DecimalString.
From Stdlib.Strings Require Import Byte.
From stdpp Require Import base option list gmap strings.

Open Scope string_scope.
Open Scope list_scope.
Open Scope stdpp_scope.
Open Scope nat_scope.

(** ** Python built-ins *)
Module Py.

(** The values a ticket payload holds: [TicketPayload.dict()] yields [str],
    [int] and [None]. *)
Inductive pyval : Type :=
| PNone
| PInt (z : Z)
| PStr (s : string).

#[global] Instance pyval_eq_dec : EqDecision pyval.
Proof. solve_decision. Defined.

Definition pyval_enc (v : pyval) : unit + Z + string :=
  match v with
  | PNone => inl (inl tt)
  | PInt z => inl (inr z)
  | PStr s => inr s
  end.

Definition pyval_dec (x : unit + Z + string) : pyval :=
  match x with
  | inl (inl _) => PNone
  | inl (inr z) => PInt z
  | inr s => PStr s
  end.

#[global] Instance pyval_countable : Countable pyval.
Proof. apply (inj_countable' pyval_enc pyval_dec). by intros []. Defined.

(** [bool(v)] *)
Definition truthy (v : pyval) : bool :=
  match v with
  | PNone => false
  | PInt z => negb (z =? 0)%Z
  | PStr s => negb (String.eqb s "")
  end.

(** [str(v)], which is what an f-string field [{v}] renders. *)
Definition str (v : pyval) : string :=
  match v with
  | PNone => "None"
  | PInt z => NilZero.string_of_int (Z.to_int z)
  | PStr s => s
  end.

(** [d.get(k)] and [d.get(k, dflt)] *)
Definition get (d : gmap string pyval) (k : string) : pyval :=
  default PNone (d !! k).

Definition get_or (d : gmap string pyval) (k : string) (dflt : pyval) : pyval :=
  default dflt (d !! k).

(** [s.rstrip(chars)] *)
Fixpoint rstrip (chars : list ascii) (s : string) : string :=
  match s with
  | EmptyString => EmptyString
  | String a r =>
      match rstrip chars r with
      | EmptyString =>
          if existsb (Ascii.eqb a) chars then EmptyString
          else String a EmptyString
      | r' => String a r'
      end
  end.

Fixpoint contains_char (c : ascii) (s : string) : bool :=
  match s with
  | EmptyString => false
  | String a r => Ascii.eqb a c || contains_char c r
  end.

(** [s.replace(a, b)] for one-character [a] and [b] *)
Fixpoint replace_char (a b : ascii) (s : string) : string :=
  match s with
  | EmptyString => EmptyString
  | String c r => String (if Ascii.eqb c a then b else c) (replace_char a b r)
  end.

(** [sep.join(items)]: raises [TypeError] (here [None]) as soon as an item
    is not a [str]. *)
Fixpoint join (sep : string) (items : list pyval) : option string :=
  match items with
  | [] => Some ""
  | [PStr s] => Some s
  | PStr s :: rest => (fun r => s +:+ sep +:+ r) <$> join sep rest
  | _ :: _ => None
  end.

Definition hex_digit (upper : bool) (n : N) : ascii :=
  ascii_of_N (if (n <? 10)%N then 48 + n
              else if upper then 55 + n else 87 + n)%N.

(** [bytes.hex()] *)
Fixpoint hex (bs : list byte) : string :=
  match bs with
  | [] => ""
  | b :: rest =>
      let n := Byte.to_N b in
      String (hex_digit false (n / 16)) (String (hex_digit false (n mod 16)) (hex rest))
  end.

(** [all(P(c) for c in s)] *)
Fixpoint all_chars (P : ascii → bool) (s : string) : bool :=
  match s with
  | EmptyString => true
  | String c r => P c && all_chars P r
  end.

(** White space as [str.strip()] and [str.isspace()] see it, on the UTF-8
    bytes of the string: the ASCII characters 09-0D, 1C-1F and 20; U+0085
    and U+00A0 (two bytes); U+1680, U+2000 to U+200A, U+2028, U+2029,
    U+202F, U+205F and U+3000 (three bytes). *)
Definition ws1 (c : ascii) : bool :=
  let n := N_of_ascii c in
  ((9 <=? n) && (n <=? 13) || (28 <=? n) && (n <=? 32))%N.

Definition ws2 (c d : ascii) : bool :=
  let n := N_of_ascii d in
  (N_of_ascii c =? 194)%N && ((n =? 133) || (n =? 160))%N.

Definition ws3 (c d e : ascii) : bool :=
  let a := N_of_ascii c in
  let b := N_of_ascii d in
  let n := N_of_ascii e in
  ((a =? 225) && (b =? 154) && (n =? 128)
   || (a =? 226) && (b =? 128)
      && ((128 <=? n) && (n <=? 138) || (n =? 168) || (n =? 169) || (n =? 175))
   || (a =? 226) && (b =? 129) && (n =? 159)
   || (a =? 227) && (b =? 128) && (n =? 128))%N.

(** [s] is one white-space character. *)
Definition is_space (s : string) : bool :=
  match s with
  | String c EmptyString => ws1 c
  | String c (String d EmptyString) => ws2 c d
  | String c (String d (String e EmptyString)) => ws3 c d e
  | _ => false
  end.

(** [s] begins with a white-space character. *)
Definition starts_with_space (s : string) : bool :=
  match s with
  | String c r =>
      ws1 c
      || match r with
         | String d r2 =>
             ws2 c d
             || match r2 with
                | String e _ => ws3 c d e
                | EmptyString => false
                end
         | EmptyString => false
         end
  | EmptyString => false
  end.

(** [s.lstrip()] *)
Fixpoint lstrip_ws (s : string) : string :=
  match s with
  | EmptyString => EmptyString
  | String c r =>
      if ws1 c then lstrip_ws r
      else
        match r with
        | String d r2 =>
            if ws2 c d then lstrip_ws r2
            else
              match r2 with
              | String e r3 => if ws3 c d e then lstrip_ws r3 else s
              | EmptyString => s
              end
        | EmptyString => s
        end
  end.

(** [s.rstrip()] *)
Fixpoint rstrip_ws (s : string) : string :=
  match s with
  | EmptyString => EmptyString
  | String c r =>
      let r' := rstrip_ws r in
      if is_space (String c r') then EmptyString else String c r'
  end.

(** [s.strip()] *)
Definition strip (s : string) : string := rstrip_ws (lstrip_ws s).

(** [s.split(",")] *)
Fixpoint split_comma (s : string) : list string :=
  match s with
  | EmptyString => [EmptyString]
  | String c r =>
      if Ascii.eqb c "," then EmptyString :: split_comma r
      else
        match split_comma r with
        | x :: xs => String c x :: xs
        | [] => [String c EmptyString]
        end
  end.

(** The one-byte line boundaries of [str.splitlines()]: LF, VT, FF, CR,
    FS, GS and RS. (The others are U+0085, U+2028 and U+2029.) *)
Definition is_break1 (c : ascii) : bool :=
  let n := N_of_ascii c in
  ((10 <=? n) && (n <=? 13) || (28 <=? n) && (n <=? 30))%N.

Definition nonempty (s : string) : bool :=
  match s with EmptyString => false | String _ _ => true end.

(** [len(s.splitlines()) > 1], on the UTF-8 bytes: some line boundary has
    text after it (CR LF counting as one boundary). *)
Fixpoint multiline (s : string) : bool :=
  match s with
  | EmptyString => false
  | String c r =>
      if (N_of_ascii c =? 13)%N then
        match r with
        | String d r2 => if (N_of_ascii d =? 10)%N then nonempty r2 else true
        | EmptyString => false
        end
      else if is_break1 c then nonempty r
      else
        match r with
        | String d r2 =>
            if ((N_of_ascii c =? 194) && (N_of_ascii d =? 133))%N then nonempty r2
            else
              match r2 with
              | String e r3 =>
                  if ((N_of_ascii c =? 226) && (N_of_ascii d =? 128)
                      && ((N_of_ascii e =? 168) || (N_of_ascii e =? 169)))%N
                  then nonempty r3
                  else multiline r
              | EmptyString => multiline r
              end
        | EmptyString => false
        end
  end.

(** [s] holds a one-byte line boundary. *)
Definition has_break (s : string) : bool :=
  negb (all_chars (λ c, negb (is_break1 c)) s).

(** [s.encode('ascii')] does not raise. *)
Definition is_ascii (s : string) : bool :=
  all_chars (λ c, (N_of_ascii c <? 128)%N) s.

(** [s[-1]] when [s] is not empty *)
Fixpoint last_char (s : string) : option ascii :=
  match s with
  | EmptyString => None
  | String c EmptyString => Some c
  | String _ r => last_char r
  end.

(** The digits [bytes.hex()] writes. *)
Definition lower_hex (c : ascii) : bool :=
  existsb (Ascii.eqb c)
    ["0"; "1"; "2"; "3"; "4"; "5"; "6"; "7"; "8"; "9";
     "a"; "b"; "c"; "d"; "e"; "f"]%char.

End Py.

(** ** urllib.parse (CPython 3.7 and later) *)
Module Urllib.
Import Py.

Definition in_range (lo hi c : ascii) : bool :=
  ((N_of_ascii lo <=? N_of_ascii c) && (N_of_ascii c <=? N_of_ascii hi))%N.

(** [_ALWAYS_SAFE]: letters, digits and [_.-~] *)
Definition ALWAYS_SAFE (c : ascii) : bool :=
  in_range "A" "Z" c || in_range "a" "z" c || in_range "0" "9" c
  || existsb (Ascii.eqb c) ["_"; "."; "-"; "~"]%char.

(** [_Quoter.__missing__]: [chr(b) if b in safe else '%{:02X}'.format(b)] *)
Definition quoter (safe : list ascii) (c : ascii) : string :=
  if ALWAYS_SAFE c || existsb (Ascii.eqb c) safe then String c ""
  else
    let n := N_of_ascii c in
    String "%" (String (hex_digit true (n / 16))
                  (String (hex_digit true (n mod 16)) "")).

Fixpoint quote_from_bytes (safe : list ascii) (bs : string) : string :=
  match bs with
  | EmptyString => EmptyString
  | String c r => quoter safe c +:+ quote_from_bytes safe r
  end.

(** [quote_plus(string)] with its default [safe=''] *)
Definition quote_plus (s : string) : string :=
  if negb (contains_char " " s) then quote_from_bytes [] s
  else replace_char " " "+" (quote_from_bytes [" "%char] s).

(** What may stand in an encoded room name. *)
Definition encoded_char (c : ascii) : bool :=
  ALWAYS_SAFE c || Ascii.eqb c "%" || Ascii.eqb c "+".

(** What [quote_plus] makes of one byte. *)
Definition quote_plus_byte (c : ascii) : string :=
  replace_char " " "+" (quoter [" "%char] c).

(** Reading an encoded name back: [%XY] is the byte with hex digits [XY],
    [+] is a space. (The package never decodes; this is the inverse used to
    show that [quote_plus] loses nothing.) *)
Definition unhex (c : ascii) : N :=
  let n := N_of_ascii c in
  if (n <? 58)%N then (n - 48)%N else (n - 55)%N.

Fixpoint decode (s : string) : string :=
  match s with
  | EmptyString => EmptyString
  | String c r =>
      if Ascii.eqb c "%" then
        match r with
        | String a (String b r') =>
            String (ascii_of_N (16 * unhex a + unhex b)) (decode r')
        | _ => String c (decode r)
        end
      else String (if Ascii.eqb c "+" then " "%char else c) (decode r)
  end.

End Urllib.

(** ** Observable effects

    One event type for the whole package. A function that has effects
    returns the events it caused, oldest first. *)
Module Effects.
Import Py.

(** Exceptions: [CancelledError] derives from [BaseException] (Python 3.8
    and later), so [except Exception] does not catch it; every other
    exception the code can meet derives from [Exception]. *)
Inductive exc : Type :=
| Exception (name : string)
| CancelledError.

(** How a call ends. *)
Inductive result : Type :=
| Return
| Raise (e : exc).

(** The [print] calls of the package, one constructor per call site. *)
Inductive log : Type :=
| LogHandling (ticket_id summary : pyval)            (* agents.py:31 *)
| LogStartingBot (room_name url : string)            (* agents.py:38 *)
| LogNoRecipients                                    (* agents.py:49 *)
| LogSendingInvites (recipients : list pyval)        (* agents.py:57 *)
| LogCompleted (ticket_id : pyval)                   (* agents.py:69 *)
| LogSmtpSkipped                                     (* email_utils.py:52 *)
| LogEmailSent (recipients : list pyval) (host : string) (port : Z)
                                                     (* email_utils.py:72 *)
| LogLaunching (url : string)                        (* meeting.py:23 *)
| LogSetNameFailed                                   (* meeting.py:62 *)
| LogMuteFailed                                      (* meeting.py:87 *)
| LogBotJoined (room_name : string)                  (* meeting.py:89 *)
| LogBotCancelled.                                   (* meeting.py:97 *)

(** What [start_bot_and_hold] awaits. *)
Inductive awaitable : Type :=
| Launch                                  (* launch({...}) *)
| NewPage                                 (* browser.newPage() *)
| Goto (url : string)                     (* page.goto(url) *)
| Sleep (seconds : Z)                     (* asyncio.sleep(n) *)
| EvalSetName (display_name : string)     (* page.evaluate(localStorage ...) *)
| Reload                                  (* page.reload() *)
| EvalMute                                (* page.evaluate(click mute) *)
| BrowserClose.                           (* browser.close() *)

(** The calendar object [create_ics] builds, before [to_ical()]. *)
Record ics : Type := {
  ics_summary : string;
  ics_dtstart : Z;
  ics_dtend : Z;
  ics_dtstamp : Z;
  ics_location : string;
  ics_uid : string;
  ics_organizer : string * string * string;      (* address, cn, role *)
  ics_attendees : list (string * string * string) (* address, cn, ROLE *)
}.

(** The [EmailMessage] handed to [server.send_message]. *)
Record email : Type := {
  Subject : string;
  From : string * string;                          (* display name, address *)
  To : string;
  content : string;
  attached : list (string * string * string * ics) (* filename, maintype, subtype, content *)
}.

Inductive event : Type :=
| Print (l : log)
| Await (a : awaitable)                 (* the coroutine starts [a] and suspends *)
| SetNavigationTimeout (ms : Z)         (* page.setDefaultNavigationTimeout *)
| CreateTask (tid : nat) (room_name display_name : string)
| SmtpConnect (host : string) (port : Z)
| SmtpEhlo
| SmtpStartTls
| SmtpLogin (user password : string)
| SmtpSendMessage (msg : email).

Definition is_await (e : event) : bool :=
  match e with Await _ => true | _ => false end.

End Effects.

(** ** meeting.py *)
Module Meeting.
Import Py Urllib Effects.

Record JitsiMeeting : Type := { jitsi_base : string }.

(** [JitsiMeeting.__init__] *)
Definition JitsiMeeting_init (base : string) : JitsiMeeting :=
  {| jitsi_base := rstrip ["/"%char] base |}.

(** [JitsiMeeting.room_url] *)
Definition room_url (self : JitsiMeeting) (room_name : string) : string :=
  let qp := "?config.startWithAudioMuted=true&config.startWithVideoMuted=true" in
  jitsi_base self +:+ "/" +:+ quote_plus room_name +:+ qp.

(** *** [start_bot_and_hold] as a resumable coroutine

    The coroutine is suspended at one of its [await] expressions, or has not
    started, or has finished. [pc] names the suspension points in source
    order; [AtClose] remembers what the [finally] block does once
    [browser.close()] is over: fall off the end of the function, or re-raise
    the exception that entered it. *)
Inductive pc : Type :=
| Start
| AtLaunch        (* browser = await launch(...)          meeting.py:25 *)
| AtNewPage       (* page = await browser.newPage()       meeting.py:39 *)
| AtGoto          (* await page.goto(url)                 meeting.py:46 *)
| AtSleep3        (* await asyncio.sleep(3)               meeting.py:50 *)
| AtSetName       (* await page.evaluate(...)             meeting.py:53 *)
| AtReload        (* await page.reload()                  meeting.py:59 *)
| AtSleep2        (* await asyncio.sleep(2)               meeting.py:60 *)
| AtMute          (* await page.evaluate(...)             meeting.py:67 *)
| AtHold          (* await asyncio.sleep(60)              meeting.py:95 *)
| AtClose (pending : option exc)  (* await browser.close() meeting.py:99 *)
| Finished (r : result).

(** What the event loop hands back at an [await]: the awaited value, or an
    exception thrown at that point. *)
Inductive wake : Type :=
| Ok
| Throw (e : exc).

(** The second [try] block (meeting.py:65-87) and what follows it up to the
    first [asyncio.sleep(60)]. *)
Definition enter_mute : pc * list event := (AtMute, [Await EvalMute]).

Definition enter_hold (room_name : string) : pc * list event :=
  (AtHold, [Print (LogBotJoined room_name); Await (Sleep 60)]).

(** [except Exception as e] of the first [try] (meeting.py:61-62): an
    [Exception] is printed and the code goes on; [CancelledError] is not
    caught. *)
Definition except_set_name (e : exc) : pc * list event :=
  match e with
  | Exception _ =>
      let '(p, evs) := enter_mute in (p, Print LogSetNameFailed :: evs)
  | CancelledError => (Finished (Raise e), [])
  end.

(** [JitsiMeeting.start_bot_and_hold], one resumption at a time: from the
    suspension point [p], woken with [w], the body runs to its next [await]
    (or to its end). *)
Definition start_bot_and_hold (self : JitsiMeeting) (room_name display_name : string)
    (p : pc) (w : wake) : pc * list event :=
  let url := room_url self room_name in
  match p, w with
  | Finished r, _ => (Finished r, [])
  (* an exception thrown into a coroutine that has not started *)
  | Start, Throw e => (Finished (Raise e), [])
  | Start, Ok => (AtLaunch, [Print (LogLaunching url); Await Launch])
  (* nothing encloses these awaits: an exception leaves the function *)
  | AtLaunch, Throw e => (Finished (Raise e), [])
  | AtLaunch, Ok => (AtNewPage, [Await NewPage])
  | AtNewPage, Throw e => (Finished (Raise e), [])
  | AtNewPage, Ok => (AtGoto, [SetNavigationTimeout 60000; Await (Goto url)])
  | AtGoto, Throw e => (Finished (Raise e), [])
  | AtGoto, Ok => (AtSleep3, [Await (Sleep 3)])
  | AtSleep3, Throw e => (Finished (Raise e), [])
  | AtSleep3, Ok => (AtSetName, [Await (EvalSetName display_name)])
  (* first try block *)
  | AtSetName, Throw e => except_set_name e
  | AtSetName, Ok => (AtReload, [Await Reload])
  | AtReload, Throw e => except_set_name e
  | AtReload, Ok => (AtSleep2, [Await (Sleep 2)])
  | AtSleep2, Throw e => except_set_name e
  | AtSleep2, Ok => enter_mute
  (* second try block *)
  | AtMute, Throw (Exception _) =>
      let '(p', evs) := enter_hold room_name in (p', Print LogMuteFailed :: evs)
  | AtMute, Throw CancelledError => (Finished (Raise CancelledError), [])
  | AtMute, Ok => enter_hold room_name
  (* try: while True: await asyncio.sleep(60)
     except asyncio.CancelledError: print(...)
     finally: await browser.close() *)
  | AtHold, Ok => (AtHold, [Await (Sleep 60)])
  | AtHold, Throw CancelledError =>
      (AtClose None, [Print LogBotCancelled; Await BrowserClose])
  | AtHold, Throw (Exception n) =>
      (AtClose (Some (Exception n)), [Await BrowserClose])
  (* inside finally *)
  | AtClose None, Ok => (Finished Return, [])
  | AtClose (Some e), Ok => (Finished (Raise e), [])
  | AtClose _, Throw e => (Finished (Raise e), [])
  end.

(** The states of the bot session the specification names, read off the
    suspension point. *)
Inductive phase : Type :=
| Launching | Joining | Holding | Cancelling | Closed | Failed.

Definition phase_of (p : pc) : phase :=
  match p with
  | Start | AtLaunch | AtNewPage | AtGoto => Launching
  | AtSleep3 | AtSetName | AtReload | AtSleep2 | AtMute => Joining
  | AtHold => Holding
  | AtClose _ => Cancelling
  | Finished Return => Closed
  | Finished (Raise _) => Failed
  end.

End Meeting.

(** ** asyncio: tasks on the event loop *)
Module Asyncio.
Import Py Effects Meeting.

(** An [asyncio.Task] wrapping one call of [start_bot_and_hold]: the bound
    arguments of the coroutine, where it is suspended, and whether a
    cancellation is waiting to be delivered ([Task.cancel] cancels the
    awaited future, or sets [_must_cancel]; either way the next resumption
    throws [CancelledError] into the coroutine). *)
Record task : Type := {
  coro_self : JitsiMeeting;
  coro_room : string;
  coro_display : string;
  at_pc : pc;
  must_cancel : bool
}.

Definition done (t : task) : bool :=
  match at_pc t with Finished _ => true | _ => false end.

(** [asyncio.create_task(coro)]: the task is scheduled; no line of the
    coroutine has run. *)
Definition new_task (self : JitsiMeeting) (room_name display_name : string) : task :=
  {| coro_self := self; coro_room := room_name; coro_display := display_name;
     at_pc := Start; must_cancel := false |}.

(** [Task.cancel()] *)
Definition cancel (t : task) : task :=
  if done t then t
  else {| coro_self := coro_self t; coro_room := coro_room t;
          coro_display := coro_display t; at_pc := at_pc t;
          must_cancel := true |}.

(** [Task.__step]: resume the coroutine; a pending cancellation replaces
    whatever the awaited operation produced. *)
Definition step (t : task) (w : wake) : task * list event :=
  let w' := if must_cancel t then Throw CancelledError else w in
  let '(p, evs) :=
    start_bot_and_hold (coro_self t) (coro_room t) (coro_display t) (at_pc t) w' in
  ({| coro_self := coro_self t; coro_room := coro_room t;
      coro_display := coro_display t; at_pc := p; must_cancel := false |}, evs).

(** What the outside world does to a task between two scheduler turns. *)
Inductive stimulus : Type :=
| Wake (w : wake)     (* the awaited operation is over *)
| CallCancel.         (* somebody calls task.cancel() *)

(** A run of one task under a sequence of stimuli, with the events of the
    whole run. *)
Fixpoint run (t : task) (ss : list stimulus) : task * list event :=
  match ss with
  | [] => (t, [])
  | CallCancel :: rest => run (cancel t) rest
  | Wake w :: rest =>
      let '(t', evs) := step t w in
      let '(t'', evs') := run t' rest in
      (t'', evs ++ evs')
  end.

(** Number of times the run called [browser.close()], and whether
    [launch] handed a browser back. *)
Definition is_close (e : event) : bool :=
  match e with Await BrowserClose => true | _ => false end.

Definition releases (evs : list event) : nat := length (filter is_close evs).

Definition acquired (evs : list event) : bool :=
  existsb (fun e => match e with Await NewPage => true | _ => false end) evs.

(** Whether the run got as far as "Bot joined room", the line printed on
    entering the hold loop. *)
Definition is_joined (e : event) : bool :=
  match e with Print (LogBotJoined _) => true | _ => false end.

Definition joined (evs : list event) : bool := existsb is_joined evs.

(** Where a task is suspended determines what it has done so far: whether
    it has joined, and how many times it has called [browser.close()]. *)
Definition closes_so_far (p : pc) (j : bool) (n : nat) : Prop :=
  match p with
  | AtHold => j = true ∧ n = 0
  | AtClose _ => j = true ∧ n = 1
  | Finished _ => n = (if j then 1 else 0)
  | _ => j = false ∧ n = 0
  end.

(** The awaited operation ended, well or with an [Exception]; nobody
    cancelled. *)
Definition not_cancelled (w : wake) : bool :=
  match w with
  | Throw CancelledError => false
  | _ => true
  end.

(** The browser launches, the page opens, and [page.goto] times out. *)
Definition navigation_times_out : list stimulus :=
  [Wake Ok; Wake Ok; Wake Ok; Wake (Throw (Exception "TimeoutError"))].

End Asyncio.


(** ** Module-level settings and the sources of non-determinism *)
Module Env.
Import Effects.

(** The constants agents.py and email_utils.py read from [os.environ] at
    import time. [DEV_EMAILS] is the list after splitting and stripping;
    [SMTP_USER] and [SMTP_PASSWORD] have no default and may be [None]. *)
Record settings : Type := {
  JITSI_BASE : string;
  DEV_EMAILS : list string;
  FROM_NAME : string;
  BOT_DISPLAY_NAME : string;
  SMTP_HOST : string;
  SMTP_PORT : Z;
  SMTP_USER : option string;
  SMTP_PASSWORD : option string
}.

(** Where sending can fail for a reason that is not computed here: inside
    the email package while the [EmailMessage] is put together
    ([SCompose]), or at one of the calls on the SMTP connection. What the
    code's own strings decide by a plain check is computed by [compose]: a
    header value of more than one line, a sender address that is not
    ASCII, a recipient that is not a string, a MIME type without a slash.
    [SCompose] stands for what is left, above all the RFC 5322 address
    parser of the email package, which is not embedded: it refuses some
    further [From] and [To] values (those where a carriage return or line
    feed ends up inside an address part, as in a malformed address followed
    by a final line break). Which stage fails is an input. *)
Inductive smtp_stage : Type :=
| SCompose | SConnect | SEhlo | SStartTls | SLogin | SSend.

#[global] Instance smtp_stage_eq_dec : EqDecision smtp_stage.
Proof. solve_decision. Defined.

(** How one attempt to send goes: [Delivered] when nothing fails beyond
    what [compose] computes. *)
Inductive smtp_outcome : Type :=
| Delivered
| FailsAt (stage : smtp_stage) (error : string).

(** The exception the attempt raises at [st], if any. *)
Definition fails_at (o : smtp_outcome) (st : smtp_stage) : option exc :=
  match o with
  | Delivered => None
  | FailsAt st' error => if decide (st' = st) then Some (Exception error) else None
  end.

#[global] Instance smtp_outcome_eq_dec : EqDecision smtp_outcome.
Proof. solve_decision. Defined.

(** What one call of [handle_incident] draws from outside the program. *)
Record oracle : Type := {
  token_bytes : list byte;   (* secrets.token_bytes(4) *)
  now : Z;                   (* datetime.now(timezone.utc), in seconds *)
  utcnow : Z;                (* datetime.utcnow(), in seconds *)
  uuid4 : string;            (* str(uuid.uuid4()) *)
  smtp : smtp_outcome
}.

End Env.

(** ** email_utils.py *)
Module EmailUtils.
Import Py Effects Env.

(** [x or y] on optional strings, and [not x] *)
Definition falsy (x : option string) : bool :=
  match x with
  | None => true
  | Some s => String.eqb s ""
  end.

Definition or_else (x : option string) (y : string) : string :=
  match x with
  | Some s => if String.eqb s "" then y else s
  | None => y
  end.

(** f"{x}" for an optional string *)
Definition str_opt (x : option string) : string :=
  match x with
  | Some s => s
  | None => "None"
  end.

(** [create_ics] *)
Definition create_ics (o : oracle) (subject : string) (start_dt end_dt : Z)
    (organizer_name : string) (organizer_email : option string)
    (attendees_emails : list pyval) (location : string)
    (uid : option string) : ics :=
  {| ics_summary := subject;
     ics_dtstart := start_dt;
     ics_dtend := end_dt;
     ics_dtstamp := utcnow o;
     ics_location := location;
     ics_uid := or_else uid (uuid4 o);
     ics_organizer := ("MAILTO:" +:+ str_opt organizer_email, organizer_name, "CHAIR");
     ics_attendees :=
       (fun a => ("MAILTO:" +:+ str a, str a, "REQ-PARTICIPANT")) <$> attendees_emails |}.

(** [mimetype.split("/", 1)] unpacked into two names: [ValueError] (here
    [None]) when there is no slash. *)
Fixpoint split_slash (s : string) : option (string * string) :=
  match s with
  | EmptyString => None
  | String c r =>
      if Ascii.eqb c "/" then Some (EmptyString, r)
      else (fun '(a, b) => (String c a, b)) <$> split_slash r
  end.

(** The [for fn, content, mimetype in attachments] loop. *)
Fixpoint attach (attachments : list (string * ics * string))
    : option (list (string * string * string * ics)) :=
  match attachments with
  | [] => Some []
  | (fn, content, mimetype) :: rest =>
      match split_slash mimetype with
      | None => None
      | Some (maintype, subtype) =>
          (fun l => (fn, maintype, subtype, content) :: l) <$> attach rest
      end
  end.

(** The [with smtplib.SMTP(...) as server] block: the calls in order, cut
    short by the first one that raises. *)
Fixpoint smtp_calls (calls : list (smtp_stage * event)) (o : smtp_outcome)
    : result * list event :=
  match calls with
  | [] => (Return, [])
  | (st, ev) :: rest =>
      match fails_at o st with
      | Some e => (Raise e, [ev])
      | None => let '(r, evs) := smtp_calls rest o in (r, ev :: evs)
      end
  end.

(** What [email.utils.formataddr((name, address))] followed by
    [msg['From'] = ...] refuses. [formataddr] writes the address alone when
    the name is empty, and otherwise the name (quoted and escaped if it is
    ASCII, as an encoded word if not), a space and the address in angle
    brackets; so the value ends in [>] and any line boundary left in it
    has text after it. *)
Definition from_refused (name address : string) : bool :=
  if String.eqb name "" then multiline address
  else is_ascii name && has_break name || has_break address.

(** email_utils.py:55-65, the message put together, or the exception that
    ends the attempt before any connection is opened. Assigning a header
    raises [ValueError] when the value has more than one line
    ([EmailPolicy.header_store_parse]); [formataddr] raises
    [UnicodeEncodeError] when the address is not ASCII; [join] raises
    [TypeError] on a recipient that is not a [str]; the unpacking of
    [mimetype.split("/", 1)] raises [ValueError] without a slash. *)
Definition compose (cfg : settings) (o : oracle) (subject body : string)
    (recipients : list pyval) (attachments : list (string * ics * string))
    (from_name : option string) : exc + email :=
  let name := or_else from_name (FROM_NAME cfg) in
  let user := str_opt (SMTP_USER cfg) in
  match fails_at (smtp o) SCompose with
  | Some e => inl e
  | None =>
      if multiline subject then inl (Exception "ValueError")
      else if negb (is_ascii user) then inl (Exception "UnicodeEncodeError")
      else if from_refused name user then inl (Exception "ValueError")
      else
        match join ", " recipients with
        | None => inl (Exception "TypeError")
        | Some to =>
            if multiline to then inl (Exception "ValueError")
            else
              match attach attachments with
              | None => inl (Exception "ValueError")
              | Some atts =>
                  inr {| Subject := subject;
                         From := (name, user);
                         To := to;
                         content := body;
                         attached := atts |}
              end
        end
  end.

(** [send_email] *)
Definition send_email (cfg : settings) (o : oracle) (subject body : string)
    (recipients : list pyval) (attachments : list (string * ics * string))
    (from_name : option string) : result * list event :=
  if falsy (SMTP_USER cfg) || falsy (SMTP_PASSWORD cfg) then
    (Return, [Print LogSmtpSkipped])
  else
    let user := str_opt (SMTP_USER cfg) in
    let password := str_opt (SMTP_PASSWORD cfg) in
    match compose cfg o subject body recipients attachments from_name with
    | inl e => (Raise e, [])
    | inr msg =>
        let '(r, evs) :=
          smtp_calls [(SConnect, SmtpConnect (SMTP_HOST cfg) (SMTP_PORT cfg));
                      (SEhlo, SmtpEhlo);
                      (SStartTls, SmtpStartTls);
                      (SLogin, SmtpLogin user password);
                      (SSend, SmtpSendMessage msg)] (smtp o) in
        match r with
        | Return =>
            (Return, evs ++ [Print (LogEmailSent recipients (SMTP_HOST cfg) (SMTP_PORT cfg))])
        | Raise e => (Raise e, evs)
        end
    end.

(** [send_invites_with_ics] *)
Definition send_invites_with_ics (cfg : settings) (o : oracle)
    (subject body : string) (attendees : list pyval) (start end_ : Z)
    (location organizer_name : string) : result * list event :=
  let organizer_email := SMTP_USER cfg in
  let ics := create_ics o subject start end_ organizer_name organizer_email
               attendees location None in
  let attachments := [("invite.ics", ics, "text/calendar")] in
  send_email cfg o subject body attendees attachments (Some organizer_name).

(** The events only [send_email] produces: its skip message, its SMTP
    calls and its success message. *)
Definition from_send_email (e : event) : bool :=
  match e with
  | Print LogSmtpSkipped | Print (LogEmailSent _ _ _) => true
  | SmtpConnect _ _ | SmtpEhlo | SmtpStartTls | SmtpLogin _ _
  | SmtpSendMessage _ => true
  | _ => false
  end.

(** The events that touch the network. *)
Definition network (e : event) : bool :=
  match e with
  | SmtpConnect _ _ | SmtpEhlo | SmtpStartTls | SmtpLogin _ _
  | SmtpSendMessage _ => true
  | _ => false
  end.

(** The messages a run handed to [server.send_message]. *)
Definition sent_messages (evs : list event) : list email :=
  omap (λ e, match e with SmtpSendMessage m => Some m | _ => None end) evs.

End EmailUtils.

(** ** agents.py *)
Module Agents.
Import Py Urllib Effects Meeting Asyncio Env EmailUtils.

(** [IncidentResponderAgent]: [bot_tasks] maps a ticket id to the task
    object stored for it, a task being named by its index in the event
    loop's task table. *)
Record IncidentResponderAgent : Type := {
  jitsi : JitsiMeeting;
  bot_tasks : gmap pyval nat
}.

(** [IncidentResponderAgent.__init__] *)
Definition IncidentResponderAgent_init (cfg : settings) : IncidentResponderAgent :=
  {| jitsi := JitsiMeeting_init (JITSI_BASE cfg); bot_tasks := ∅ |}.

(** The process: the shared agent, the event loop's tasks (every task ever
    created, in creation order) and everything printed or sent so far. *)
Record world : Type := {
  responder : IncidentResponderAgent;
  tasks : list task;
  trace : list event
}.

Definition boot (cfg : settings) : world :=
  {| responder := IncidentResponderAgent_init cfg; tasks := []; trace := [] |}.

Definition nl : string := String (ascii_of_nat 10) EmptyString.

(** [secrets.token_hex(4)] *)
Definition token_hex (o : oracle) : string := hex (token_bytes o).

(** agents.py:10, the value of [DEV_EMAILS] for a given (or missing)
    environment variable:
    [[e.strip() for e in os.environ.get("DEV_EMAILS", "").split(",") if e.strip()]] *)
Definition dev_emails_from (env : option string) : list string :=
  strip <$> filter (λ e, strip e ≠ "") (split_comma (default "" env)).

(** An address as [DEV_EMAILS] holds them: not empty, no comma, no white
    space around it. *)
Definition clean_address (e : string) : Prop :=
  e ≠ "" ∧ contains_char "," e = false ∧ strip e = e.

(** agents.py:44-46 *)
Definition recipients_of (cfg : settings) (reporter : pyval) : list pyval :=
  let recipients := PStr <$> DEV_EMAILS cfg in
  if truthy reporter then recipients ++ [reporter] else recipients.

(** agents.py:51-52 *)
Definition subject_of (ticket_id summary : pyval) : string :=
  "[SEV-1] " +:+ str ticket_id +:+ ": " +:+ str summary.

Definition body_of (ticket_id : pyval) (url : string) : string :=
  "A Sev-1 incident was opened: " +:+ str ticket_id +:+ nl +:+ nl
  +:+ "Join meeting: " +:+ url +:+ nl +:+ nl
  +:+ "The bot has joined the meeting; please click the link to join.".

(** agents.py:48-66, the events of step 3 and how it ends *)
Definition invite (cfg : settings) (o : oracle) (ticket_id summary : pyval)
    (url : string) (recipients : list pyval) : result * list event :=
  match recipients with
  | [] => (Return, [Print LogNoRecipients])
  | _ :: _ =>
      let subject := subject_of ticket_id summary in
      let body := body_of ticket_id url in
      let start := now o in
      let end_ := (start + 30 * 60)%Z in
      let '(r, evs) :=
        send_invites_with_ics cfg o subject body recipients start end_ url
          (FROM_NAME cfg) in
      (r, Print (LogSendingInvites recipients) :: evs)
  end.

(** [IncidentResponderAgent.handle_incident]. The body has no [await]: once
    called it runs to its end (or to an exception) before any task of the
    event loop gets a turn. *)
Definition handle_incident (cfg : settings) (o : oracle)
    (payload : gmap string pyval) (w : world) : result * world :=
  let self := responder w in
  let ticket_id := get payload "ticket_id" in
  let summary := get_or payload "summary" (PStr "") in
  let reporter := get payload "reporter_email" in
  (* 1) room name and url *)
  let room_name := str ticket_id +:+ "-" +:+ token_hex o in
  let url := room_url (jitsi self) room_name in
  (* 2) the bot task *)
  let tid := length (tasks w) in
  let bot_task := new_task (jitsi self) room_name (BOT_DISPLAY_NAME cfg) in
  let self' := {| jitsi := jitsi self;
                  bot_tasks := <[ticket_id := tid]> (bot_tasks self) |} in
  (* 3) invites *)
  let recipients := recipients_of cfg reporter in
  let '(r, sent) := invite cfg o ticket_id summary url recipients in
  let last := match r with
              | Return => [Print (LogCompleted ticket_id)]
              | Raise _ => []
              end in
  (r, {| responder := self';
         tasks := tasks w ++ [bot_task];
         trace := trace w
                  ++ [Print (LogHandling ticket_id summary);
                      Print (LogStartingBot room_name url);
                      CreateTask tid room_name (BOT_DISPLAY_NAME cfg)]
                  ++ sent ++ last |}).

(** What a call added to the trace. *)
Definition emitted (w w' : world) : list event :=
  drop (length (trace w)) (trace w').

(** The event loop gives task [tid] a turn. *)
Definition turn (tid : nat) (wk : wake) (w : world) : world :=
  match tasks w !! tid with
  | None => w
  | Some t =>
      let '(t', evs) := step t wk in
      {| responder := responder w;
         tasks := <[tid := t']> (tasks w);
         trace := trace w ++ evs |}
  end.

(** The tasks a run created with [asyncio.create_task]. *)
Definition created (evs : list event) : list nat :=
  omap (λ e, match e with CreateTask tid _ _ => Some tid | _ => None end) evs.

(** Every task named in [bot_tasks] exists in the event loop. *)
Definition registered_tasks_exist (w : world) : Prop :=
  ∀ (k : pyval) (t : nat),
    bot_tasks (responder w) !! k = Some t → t < length (tasks w).

(** What the event loop does between two calls: turns given to tasks. *)
Definition turns (ts : list (nat * wake)) (w : world) : world :=
  foldl (λ w' '(i, wk), turn i wk w') w ts.

End Agents.

(** ** app.py *)
Module App.
Import Py Effects Meeting Asyncio Env EmailUtils Agents.

(** [TicketPayload] *)
Record TicketPayload : Type := {
  ticket_id : string;
  severity : Z;
  summary : string;
  reporter_email : option string
}.

(** [payload.dict()] *)
Definition dict (p : TicketPayload) : gmap string pyval :=
  <["ticket_id" := PStr (ticket_id p)]>
    (<["severity" := PInt (severity p)]>
       (<["summary" := PStr (summary p)]>
          (<["reporter_email" := from_option PStr PNone (reporter_email p)]> ∅))).

(** The JSON body of the response. *)
Record response : Type := { status : string; message : string }.

(** [create_ticket]. [background] is the request's [BackgroundTasks]: the
    payloads [responder.handle_incident] is queued with. *)
Definition create_ticket (payload : TicketPayload)
    (background : list (gmap string pyval))
    : response * list (gmap string pyval) :=
  if (severity payload =? 1)%Z then
    ({| status := "accepted"; message := "Sev-1 received, agent triggered." |},
     background ++ [dict payload])
  else
    ({| status := "ignored"; message := "Only Sev-1 triggers meeting." |},
     background).

(** What the framework does with the queue once the response is out: each
    queued call is awaited in turn. (A request queues one call at most.) *)
Definition run_background (cfg : settings) (o : oracle)
    (background : list (gmap string pyval)) (w : world) : world :=
  foldl (fun w d => (handle_incident cfg o d w).2) w background.

(** One POST /ticket, from the request to the end of its background work. *)
Definition post_ticket (cfg : settings) (o : oracle) (payload : TicketPayload)
    (w : world) : response * world :=
  let '(resp, background) := create_ticket payload [] in
  (resp, run_background cfg o background w).

(** What happens to the process: a request comes in, or the event loop
    gives a task a turn. *)
Inductive action : Type :=
| Post (o : oracle) (p : TicketPayload)
| Turn (tid : nat) (wk : wake).

Definition act (cfg : settings) (a : action) (w : world) : world :=
  match a with
  | Post o p => (post_ticket cfg o p w).2
  | Turn tid wk => turn tid wk w
  end.

Definition serve (cfg : settings) (acts : list action) (w : world) : world :=
  foldl (λ w' a, act cfg a w') w acts.

(** The requests among [acts] that were Sev-1, in order. *)
Fixpoint accepted (acts : list action) : list (oracle * TicketPayload) :=
  match acts with
  | [] => []
  | Post o p :: rest =>
      if (severity p =? 1)%Z then (o, p) :: accepted rest else accepted rest
  | Turn _ _ :: rest => accepted rest
  end.

End App.

Import Py Urllib Effects Meeting Asyncio Env EmailUtils Agents App.

(** * Properties *)

(** ** Concrete runs used below *)

Definition cfg_demo : settings :=
  {| JITSI_BASE := "https://meet.jit.si";
     DEV_EMAILS := ["b@x.com"];
     FROM_NAME := "Incident Bot";
     BOT_DISPLAY_NAME := "IncidentBot";
     SMTP_HOST := "smtp.gmail.com";
     SMTP_PORT := 587;
     SMTP_USER := Some "bot@x.com";
     SMTP_PASSWORD := Some "secret" |}.

(** The same settings without SMTP credentials. *)
Definition cfg_no_smtp : settings :=
  {| JITSI_BASE := "https://meet.jit.si";
     DEV_EMAILS := ["b@x.com"];
     FROM_NAME := "Incident Bot";
     BOT_DISPLAY_NAME := "IncidentBot";
     SMTP_HOST := "smtp.gmail.com";
     SMTP_PORT := 587;
     SMTP_USER := None;
     SMTP_PASSWORD := None |}.

(** No responder configured, credentials present. *)
Definition cfg_no_devs : settings :=
  {| JITSI_BASE := "https://meet.jit.si";
     DEV_EMAILS := [];
     FROM_NAME := "Incident Bot";
     BOT_DISPLAY_NAME := "IncidentBot";
     SMTP_HOST := "smtp.gmail.com";
     SMTP_PORT := 587;
     SMTP_USER := Some "bot@x.com";
     SMTP_PASSWORD := Some "secret" |}.

Definition oracle_demo : oracle :=
  {| token_bytes := [x0a; x1b; x2c; x3d]%byte;
     now := 1700000000;
     utcnow := 1700000000;
     uuid4 := "7c9e6679-7425-40de-944b-e07fc1f90ae7";
     smtp := Delivered |}.

Definition oracle_demo2 : oracle :=
  {| token_bytes := [xde; xad; xbe; xef]%byte;
     now := 1700000100;
     utcnow := 1700000100;
     uuid4 := "16fd2706-8baf-433b-82eb-8c7fada847da";
     smtp := Delivered |}.

Definition ticket_demo : TicketPayload :=
  {| ticket_id := "INC1001"; severity := 1; summary := "DB cluster down";
     reporter_email := Some "a@x.com" |}.

Definition ticket_sev2 : TicketPayload :=
  {| ticket_id := "INC2002"; severity := 2; summary := "slow dashboard";
     reporter_email := Some "a@x.com" |}.

Definition ticket_anonymous : TicketPayload :=
  {| ticket_id := "INC3003"; severity := 1; summary := "DB cluster down";
     reporter_email := None |}.

(** ** The specification's wording, where the code differs from it *)

(** The claim as the specification words it: what is handed over is the
    set union of the static list and the reporter when there is one, each
    address once. *)
Definition recipients_form_a_set (cfg : settings) (reporter : pyval) : Prop :=
  NoDup (recipients_of cfg reporter)
  ∧ ∀ a : pyval,
      a ∈ recipients_of cfg reporter
      ↔ a ∈ (PStr <$> DEV_EMAILS cfg) ∨ (reporter ≠ PNone ∧ a = reporter).

(** The claim as the specification words it: while the session registered
    first is still alive, a second registration for the same id leaves the
    entry, and the set of sessions, as they were. *)
Definition duplicate_is_rejected (cfg : settings) (o1 o2 : oracle)
    (payload : gmap string pyval) (w : world) : Prop :=
  let ticket := get payload "ticket_id" in
  let w1 := (handle_incident cfg o1 payload w).2 in
  let w2 := (handle_incident cfg o2 payload w1).2 in
  (∃ (t : nat) (st : task),
      bot_tasks (responder w1) !! ticket = Some t
      ∧ tasks w1 !! t = Some st ∧ done st = false) →
  bot_tasks (responder w2) !! ticket = bot_tasks (responder w1) !! ticket
  ∧ tasks w2 = tasks w1.

(** The claim as the specification words it: when [handle_incident]
    returns, the bot it started is not yet holding the room and the invite
    has not yet gone through the transport. *)
Definition returns_before_both_finish (cfg : settings) (o : oracle)
    (payload : gmap string pyval) (w : world) : Prop :=
  let w' := (handle_incident cfg o payload w).2 in
  (∀ t, t ∈ drop (length (tasks w)) (tasks w') → phase_of (at_pc t) ≠ Holding)
  ∧ ∀ msg, SmtpSendMessage msg ∉ emitted w w'.

(** The claim as the specification words it: the join URL is the
    configured base URL, a slash, the encoded room id and the query
    string. *)
Definition join_url_is_base_slash_room (base room : string) : Prop :=
  room_url (JitsiMeeting_init base) room
  = base +:+ "/" +:+ quote_plus room
    +:+ "?config.startWithAudioMuted=true&config.startWithVideoMuted=true".

(** The encoding of a room id, spelled out byte by byte and without
    [urllib]: the 66 unreserved characters stand for themselves, a space
    becomes [+], and any other byte becomes [%] and its value as two
    upper-case hexadecimal digits. *)
Definition unreserved : string :=
  "ABCDEFGHIJKLMNOPQRSTUVWXYZabcdefghijklmnopqrstuvwxyz0123456789_.-~".

Definition upper_hex_digits : string := "0123456789ABCDEF".

Definition digit_at (n : N) : ascii :=
  match String.get (N.to_nat n) upper_hex_digits with
  | Some d => d
  | None => "0"%char
  end.

Definition form_urlencoded_byte (c : ascii) : string :=
  if contains_char c unreserved then String c ""
  else if Ascii.eqb c " " then "+"
  else String "%" (String (digit_at (N_of_ascii c / 16))
                     (String (digit_at (N_of_ascii c mod 16)) "")).

Fixpoint form_urlencoded (s : string) : string :=
  match s with
  | EmptyString => EmptyString
  | String c r => form_urlencoded_byte c +:+ form_urlencoded r
  end.

(** ** What one call of [handle_incident] does to the process *)

(** Unfold a call and name how step 3 ended and what it caused. *)
Ltac open_handle_incident :=
  unfold handle_incident;
  destruct (invite _ _ _ _ _ _) as [? ?]; simpl.

Section HandleIncident.
Context (cfg : settings) (o : oracle) (payload : gmap string pyval) (w : world).

Let ticket : pyval := get payload "ticket_id".
Let room : string := str ticket +:+ "-" +:+ token_hex o.
Let url : string := room_url (jitsi (responder w)) room.
Let step3 : result * list event :=
  invite cfg o ticket (get_or payload "summary" (PStr "")) url
    (recipients_of cfg (get payload "reporter_email")).

Lemma handle_incident_result :
  (handle_incident cfg o payload w).1 = step3.1.
Proof. unfold step3, url, room, ticket. by open_handle_incident. Qed.

Lemma handle_incident_tasks :
  tasks (handle_incident cfg o payload w).2
  = tasks w ++ [new_task (jitsi (responder w)) room (BOT_DISPLAY_NAME cfg)].
Proof. unfold room, ticket. by open_handle_incident. Qed.

Lemma handle_incident_bot_tasks :
  bot_tasks (responder (handle_incident cfg o payload w).2)
  = <[ticket := length (tasks w)]> (bot_tasks (responder w)).
Proof. unfold ticket. by open_handle_incident. Qed.

Lemma handle_incident_jitsi :
  jitsi (responder (handle_incident cfg o payload w).2) = jitsi (responder w).
Proof. by open_handle_incident. Qed.

Lemma handle_incident_emitted :
  emitted w (handle_incident cfg o payload w).2
  = [Print (LogHandling ticket (get_or payload "summary" (PStr "")));
     Print (LogStartingBot room url);
     CreateTask (length (tasks w)) room (BOT_DISPLAY_NAME cfg)]
    ++ step3.2
    ++ match step3.1 with
       | Return => [Print (LogCompleted ticket)]
       | Raise _ => []
       end.
Proof.
  unfold emitted, step3, url, room, ticket. open_handle_incident.
  by rewrite drop_app_length.
Qed.

End HandleIncident.

(** ** Examples *)

Example room_url_plain :
  room_url (JitsiMeeting_init "https://meet.jit.si") "INC1001-0a1b2c3d"
  = "https://meet.jit.si/INC1001-0a1b2c3d?config.startWithAudioMuted=true&config.startWithVideoMuted=true".
Proof. reflexivity. Qed.

Example room_url_escapes :
  room_url (JitsiMeeting_init "https://meet.example.org//") "DB down/#7-ff"
  = "https://meet.example.org/DB+down%2F%237-ff?config.startWithAudioMuted=true&config.startWithVideoMuted=true".
Proof. reflexivity. Qed.

Example hex_token : hex [x00; xab; x1f; xf0]%byte = "00ab1ff0".
Proof. reflexivity. Qed.

(** The scenario of the specification: INC1001, severity 1, reporter
    a@x.com, responders [b@x.com]. *)
Example scenario_INC1001 :
  let '(resp, w) := post_ticket cfg_demo oracle_demo ticket_demo (boot cfg_demo) in
  status resp = "accepted"
  ∧ (coro_room <$> tasks w) = ["INC1001-0a1b2c3d"]
  ∧ (phase_of ∘ at_pc <$> tasks w) = [Launching]
  ∧ map_to_list (bot_tasks (responder w)) = [(PStr "INC1001", 0)]
  ∧ trace w !! 3 = Some (Print (LogSendingInvites [PStr "b@x.com"; PStr "a@x.com"]))
  ∧ (∃ msg, trace w !! 8 = Some (SmtpSendMessage msg)
            ∧ Subject msg = "[SEV-1] INC1001: DB cluster down"
            ∧ To msg = "b@x.com, a@x.com").
Proof.
  vm_compute. repeat split. eexists. repeat split.
Qed.

Example dispatch_failure_reaches_the_caller :
  (handle_incident cfg_demo
     {| token_bytes := [x0a; x1b; x2c; x3d]%byte; now := 0; utcnow := 0;
        uuid4 := "u"; smtp := FailsAt SLogin "SMTPAuthenticationError" |}
     (dict ticket_demo) (boot cfg_demo)).1
  = Raise (Exception "SMTPAuthenticationError").
Proof. reflexivity. Qed.

(** A header value is refused when it has text after a line boundary, not
    when it only ends in one. *)
Example multiline_cases :
  multiline ("a" +:+ nl +:+ "b") = true
  ∧ multiline ("a" +:+ nl) = false
  ∧ multiline nl = false
  ∧ multiline "a b" = false
  ∧ multiline (String "a" (String "013" (String "010" "b"))) = true
  ∧ multiline (String "a" (String "013" (String "010" ""))) = false
  ∧ multiline (String "a" (String "013" "b")) = true
  ∧ multiline (String "a" (String "011" "b")) = true
  ∧ multiline (String "a" (String "028" "b")) = true
  ∧ multiline (String "a" (String "194" (String "133" "b"))) = true
  ∧ multiline (String "a" (String "226" (String "128" (String "168" "b")))) = true
  ∧ multiline (String "a" (String "226" (String "128" (String "168" "")))) = false
  ∧ multiline (String "a" (String "226" (String "128" (String "148" "b")))) = false
  ∧ multiline (String "a" (String "009" "b")) = false.
Proof. repeat split. Qed.

(** A summary of two lines with credentials and a working server: the
    subject is refused, the call raises [ValueError] and no connection is
    opened; the bot task has been created all the same. *)
Example line_break_in_the_summary_is_refused :
  let payload :=
    <["summary" := PStr ("DB down" +:+ nl +:+ "all regions")]> (dict ticket_demo) in
  let rw := handle_incident cfg_demo oracle_demo payload (boot cfg_demo) in
  rw.1 = Raise (Exception "ValueError")
  ∧ emitted (boot cfg_demo) rw.2
    = [Print (LogHandling (PStr "INC1001") (PStr ("DB down" +:+ nl +:+ "all regions")));
       Print (LogStartingBot "INC1001-0a1b2c3d"
                "https://meet.jit.si/INC1001-0a1b2c3d?config.startWithAudioMuted=true&config.startWithVideoMuted=true");
       CreateTask 0 "INC1001-0a1b2c3d" "IncidentBot";
       Print (LogSendingInvites [PStr "b@x.com"; PStr "a@x.com"])]
  ∧ (at_pc <$> tasks rw.2) = [Start].
Proof. vm_compute. repeat split. Qed.

Example cancel_before_joining_leaks :
  let '(t, evs) := run (new_task (JitsiMeeting_init "https://meet.jit.si") "r" "Bot")
                     [Wake Ok; Wake Ok; Wake Ok; Wake Ok; CallCancel; Wake Ok] in
  at_pc t = Finished (Raise CancelledError) ∧ acquired evs = true ∧ releases evs = 0.
Proof. done. Qed.

Example cancel_while_holding_closes :
  let '(t, evs) := run (new_task (JitsiMeeting_init "https://meet.jit.si") "r" "Bot")
                     (replicate 9 (Wake Ok) ++ [CallCancel; CallCancel; Wake Ok; Wake Ok]) in
  at_pc t = Finished Return ∧ acquired evs = true ∧ releases evs = 1.
Proof. done. Qed.

(** Replacing or removing a key the function never looks up changes
    nothing. *)
Lemma get_insert_ne (d : gmap string pyval) (k k' : string) (v : pyval) :
  k ≠ k' → get (<[k := v]> d) k' = get d k'.
Proof. intros Hne. unfold get. by rewrite lookup_insert_ne. Qed.

Lemma get_or_insert_ne (d : gmap string pyval) (k k' : string) (v dflt : pyval) :
  k ≠ k' → get_or (<[k := v]> d) k' dflt = get_or d k' dflt.
Proof. intros Hne. unfold get_or. by rewrite lookup_insert_ne. Qed.

Lemma get_delete_ne (d : gmap string pyval) (k k' : string) :
  k ≠ k' → get (delete k d) k' = get d k'.
Proof. intros Hne. unfold get. by rewrite lookup_delete_ne. Qed.

Lemma get_or_delete_ne (d : gmap string pyval) (k k' : string) (dflt : pyval) :
  k ≠ k' → get_or (delete k d) k' dflt = get_or d k' dflt.
Proof. intros Hne. unfold get_or. by rewrite lookup_delete_ne. Qed.

(** [handle_incident] depends on the payload through three keys only. *)
Lemma handle_incident_ext cfg o (p q : gmap string pyval) w :
  get p "ticket_id" = get q "ticket_id" →
  get_or p "summary" (PStr "") = get_or q "summary" (PStr "") →
  get p "reporter_email" = get q "reporter_email" →
  handle_incident cfg o p w = handle_incident cfg o q w.
Proof. intros H1 H2 H3. unfold handle_incident. by rewrite H1, H2, H3. Qed.

(** ** The intake endpoint *)

Lemma post_ticket_sev1 cfg o p w :
  severity p = 1%Z →
  post_ticket cfg o p w
  = ({| status := "accepted"; message := "Sev-1 received, agent triggered." |},
     (handle_incident cfg o (dict p) w).2).
Proof.
  intros H. unfold post_ticket, create_ticket. by rewrite H.
Qed.

(** C4. An event whose severity is not 1 is answered with "ignored" and
    nothing happens: the request's background queue stays as it was, and
    after the whole request the process is the one it was before it, so no
    task was created or stored in [bot_tasks], and nothing was printed or
    sent. *)
Theorem create_ticket_ignores_other_severities
    (cfg : settings) (o : oracle) (p : TicketPayload)
    (background : list (gmap string pyval)) (w : world) :
  severity p ≠ 1%Z →
  create_ticket p background
  = ({| status := "ignored"; message := "Only Sev-1 triggers meeting." |},
     background)
  ∧ post_ticket cfg o p w
    = ({| status := "ignored"; message := "Only Sev-1 triggers meeting." |}, w).
Proof.
  intros Hsev. unfold post_ticket, create_ticket.
  destruct (Z.eqb_spec (severity p) 1) as [Heq | _]; [by destruct Hsev |].
  done.
Qed.

Lemma create_ticket_ignores_other_severities_witness :
  severity ticket_sev2 ≠ 1%Z
  ∧ post_ticket cfg_demo oracle_demo ticket_sev2 (boot cfg_demo)
    = ({| status := "ignored"; message := "Only Sev-1 triggers meeting." |},
       boot cfg_demo).
Proof.
  split; [done |].
  apply (create_ticket_ignores_other_severities cfg_demo oracle_demo
           ticket_sev2 [] (boot cfg_demo)).
  done.
Defined.

(** ** Recipients *)

(** A reporter who is also a configured responder is handed over twice. *)
Lemma recipients_repeat_the_reporter :
  recipients_of cfg_demo (PStr "b@x.com") = [PStr "b@x.com"; PStr "b@x.com"]
  ∧ ¬ recipients_form_a_set cfg_demo (PStr "b@x.com").
Proof.
  split; [reflexivity |].
  intros [Hnodup _]. vm_compute in Hnodup.
  apply NoDup_cons_1_1 in Hnodup. apply Hnodup. constructor.
Qed.

(** C5 (as the code has it). The recipients handed to the dispatcher are a
    list: the configured responders in their order, followed by the
    reporter when the payload has a truthy one (not [None], not the empty
    string). Its members are those of the union, but nothing is removed: an
    address is handed over as many times as it occurs in the configured
    list, plus once if it is the reporter. When the list is not empty it is
    this list that [handle_incident] announces and passes to
    [send_invites_with_ics] as the attendees. *)
Theorem recipients_are_responders_then_reporter
    (cfg : settings) (o : oracle) (payload : gmap string pyval) (w : world) :
  let reporter := get payload "reporter_email" in
  let rs := recipients_of cfg reporter in
  rs = (PStr <$> DEV_EMAILS cfg) ++ (if truthy reporter then [reporter] else [])
  ∧ (∀ a, a ∈ rs ↔ a ∈ (PStr <$> DEV_EMAILS cfg) ∨ (truthy reporter = true ∧ a = reporter))
  ∧ (∀ a, count_occ pyval_eq_dec rs a
          = count_occ pyval_eq_dec (PStr <$> DEV_EMAILS cfg) a
            + (if truthy reporter && bool_decide (a = reporter) then 1 else 0))
  ∧ (rs = []
     ∨ Print (LogSendingInvites rs) ∈ emitted w (handle_incident cfg o payload w).2
       ∧ ∀ ticket summary url,
           invite cfg o ticket summary url rs
           = (let '(r, evs) :=
                send_invites_with_ics cfg o (subject_of ticket summary)
                  (body_of ticket url) rs (now o) (now o + 30 * 60)%Z url
                  (FROM_NAME cfg) in
              (r, Print (LogSendingInvites rs) :: evs))).
Proof.
  intros reporter rs.
  assert (Hrs : rs = (PStr <$> DEV_EMAILS cfg)
                     ++ (if truthy reporter then [reporter] else [])).
  { unfold rs, recipients_of. destruct (truthy reporter); [done |].
    by rewrite app_nil_r. }
  split; [exact Hrs |]. split; [| split].
  - intros a. rewrite Hrs, elem_of_app.
    destruct (truthy reporter).
    + rewrite list_elem_of_singleton. tauto.
    + rewrite elem_of_nil. intuition discriminate.
  - intros a. rewrite Hrs, count_occ_app.
    destruct (truthy reporter); [| done].
    rewrite andb_true_l. case_bool_decide as Ha.
    + by rewrite count_occ_cons_eq.
    + by rewrite count_occ_cons_neq.
  - rewrite handle_incident_emitted. fold reporter. fold rs.
    destruct rs as [| r rs'] eqn:E; [by left |].
    right. split; [| done]. unfold invite.
    destruct (send_invites_with_ics _ _ _ _ _ _ _ _ _) as [res evs]; simpl.
    do 3 apply list_elem_of_further. apply list_elem_of_here.
Qed.

(** ** Sending without credentials, and not sending at all *)

Lemma emitted_without_network cfg o payload w :
  falsy (SMTP_USER cfg) || falsy (SMTP_PASSWORD cfg) = true →
  (handle_incident cfg o payload w).1 = Return
  ∧ Forall (λ e, network e = false) (emitted w (handle_incident cfg o payload w).2).
Proof.
  intros Hcred.
  rewrite handle_incident_result, handle_incident_emitted.
  unfold invite.
  destruct (recipients_of cfg (get payload "reporter_email")) as [| r rs].
  - split; [done |]. simpl. repeat constructor.
  - unfold send_invites_with_ics, send_email. rewrite Hcred. simpl.
    split; [done |]. repeat constructor.
Qed.

(** C7. Without SMTP credentials (user or password missing or empty)
    [send_email] only prints its "credentials not set" line and returns: it
    raises nothing and makes no call on the network. Called in such a
    configuration, [handle_incident] returns normally, causes no network
    event, and creates and stores the bot task as it always does. *)
Theorem send_email_without_credentials_is_a_noop
    (cfg : settings) (o : oracle) (subject body : string)
    (recipients : list pyval) (attachments : list (string * ics * string))
    (from_name : option string) (payload : gmap string pyval) (w : world) :
  falsy (SMTP_USER cfg) || falsy (SMTP_PASSWORD cfg) = true →
  send_email cfg o subject body recipients attachments from_name
  = (Return, [Print LogSmtpSkipped])
  ∧ (let rw := handle_incident cfg o payload w in
     let room := str (get payload "ticket_id") +:+ "-" +:+ token_hex o in
     rw.1 = Return
     ∧ Forall (λ e, network e = false) (emitted w rw.2)
     ∧ tasks rw.2 = tasks w ++ [new_task (jitsi (responder w)) room (BOT_DISPLAY_NAME cfg)]
     ∧ bot_tasks (responder rw.2)
       = <[get payload "ticket_id" := length (tasks w)]> (bot_tasks (responder w))).
Proof.
  intros Hcred. split.
  - unfold send_email. by rewrite Hcred.
  - simpl. destruct (emitted_without_network cfg o payload w Hcred) as [Hr Hn].
    repeat split; [exact Hr | exact Hn | apply handle_incident_tasks
                  | apply handle_incident_bot_tasks].
Qed.

Lemma send_email_without_credentials_is_a_noop_witness :
  falsy (SMTP_USER cfg_no_smtp) || falsy (SMTP_PASSWORD cfg_no_smtp) = true
  ∧ send_email cfg_no_smtp oracle_demo "[SEV-1] INC1001: DB cluster down" "body"
      [PStr "b@x.com"; PStr "a@x.com"] [] None
    = (Return, [Print LogSmtpSkipped]).
Proof.
  split; [reflexivity |].
  apply (send_email_without_credentials_is_a_noop cfg_no_smtp oracle_demo
           "[SEV-1] INC1001: DB cluster down" "body"
           [PStr "b@x.com"; PStr "a@x.com"] [] None
           (dict ticket_demo) (boot cfg_no_smtp)).
  reflexivity.
Defined.

(** The recipients are empty exactly when no responder is configured and
    the payload has no truthy reporter. *)
Lemma recipients_empty_iff cfg reporter :
  recipients_of cfg reporter = [] ↔ DEV_EMAILS cfg = [] ∧ truthy reporter = false.
Proof.
  unfold recipients_of.
  destruct (truthy reporter), (DEV_EMAILS cfg); simpl; intuition discriminate.
Qed.

(** C8. With no recipient, [send_invites_with_ics] and [send_email] are
    not called: the call prints its "no recipients" warning in their place,
    and returns normally. What it causes is exactly the five events listed;
    none of them is one of [send_email]'s. *)
Theorem no_recipients_no_send
    (cfg : settings) (o : oracle) (payload : gmap string pyval) (w : world) :
  recipients_of cfg (get payload "reporter_email") = [] →
  let rw := handle_incident cfg o payload w in
  let ticket := get payload "ticket_id" in
  let room := str ticket +:+ "-" +:+ token_hex o in
  rw.1 = Return
  ∧ emitted w rw.2
    = [Print (LogHandling ticket (get_or payload "summary" (PStr "")));
       Print (LogStartingBot room (room_url (jitsi (responder w)) room));
       CreateTask (length (tasks w)) room (BOT_DISPLAY_NAME cfg);
       Print LogNoRecipients;
       Print (LogCompleted ticket)]
  ∧ Forall (λ e, from_send_email e = false) (emitted w rw.2).
Proof.
  intros Hnone. simpl.
  rewrite handle_incident_result, handle_incident_emitted, Hnone. simpl.
  split; [done |]. split; [done |]. repeat constructor.
Qed.

Lemma no_recipients_no_send_witness :
  recipients_of cfg_no_devs (get (dict ticket_anonymous) "reporter_email") = []
  ∧ (handle_incident cfg_no_devs oracle_demo (dict ticket_anonymous)
       (boot cfg_no_devs)).1 = Return.
Proof.
  split; [reflexivity |].
  apply (no_recipients_no_send cfg_no_devs oracle_demo (dict ticket_anonymous)
           (boot cfg_no_devs)).
  reflexivity.
Defined.

(** ** The per-incident task map *)

Lemma boot_registered cfg : registered_tasks_exist (boot cfg).
Proof. intros k t H. simpl in H. by rewrite lookup_empty in H. Qed.

Lemma turn_responder i wk w : responder (turn i wk w) = responder w.
Proof.
  unfold turn. destruct (tasks w !! i) as [t |]; [| done].
  by destruct (step t wk).
Qed.

Lemma turn_length i wk w : length (tasks (turn i wk w)) = length (tasks w).
Proof.
  unfold turn. destruct (tasks w !! i) as [t |]; [| done].
  destruct (step t wk). simpl. apply length_insert.
Qed.

Lemma turns_responder ts w : responder (turns ts w) = responder w.
Proof.
  revert w. induction ts as [| [i wk] ts IH]; intros w; [done |].
  unfold turns in *. simpl. by rewrite IH, turn_responder.
Qed.

Lemma turns_length ts w : length (tasks (turns ts w)) = length (tasks w).
Proof.
  revert w. induction ts as [| [i wk] ts IH]; intros w; [done |].
  unfold turns in *. simpl. by rewrite IH, turn_length.
Qed.

Lemma handle_incident_registered cfg o payload w :
  registered_tasks_exist w →
  registered_tasks_exist (handle_incident cfg o payload w).2.
Proof.
  intros Hw k t. rewrite handle_incident_bot_tasks, handle_incident_tasks.
  rewrite length_app. simpl. intros H.
  destruct (decide (k = get payload "ticket_id")) as [-> | Hne].
  - rewrite lookup_insert_eq in H. injection H as <-. lia.
  - rewrite lookup_insert_ne in H by done. apply Hw in H. lia.
Qed.

(** Two calls for INC1001 in a row: the first task has not even started
    when the second call returns normally with its own task stored under
    the id. *)
Lemma second_registration_is_accepted :
  let w1 := (handle_incident cfg_demo oracle_demo (dict ticket_demo) (boot cfg_demo)).2 in
  let rw2 := handle_incident cfg_demo oracle_demo2 (dict ticket_demo) w1 in
  (at_pc <$> tasks w1) = [Start]
  ∧ bot_tasks (responder w1) !! PStr "INC1001" = Some 0
  ∧ rw2.1 = Return
  ∧ bot_tasks (responder rw2.2) !! PStr "INC1001" = Some 1
  ∧ (coro_room <$> tasks rw2.2) = ["INC1001-0a1b2c3d"; "INC1001-deadbeef"]
  ∧ ¬ duplicate_is_rejected cfg_demo oracle_demo oracle_demo2 (dict ticket_demo)
        (boot cfg_demo).
Proof.
  assert (Hid : get (dict ticket_demo) "ticket_id" = PStr "INC1001") by reflexivity.
  simpl. split; [reflexivity |].
  split; [by rewrite handle_incident_bot_tasks, Hid, lookup_insert_eq |].
  split; [reflexivity |].
  split; [by rewrite handle_incident_bot_tasks, Hid, lookup_insert_eq |].
  split; [reflexivity |].
  unfold duplicate_is_rejected. rewrite Hid. intros H.
  destruct H as [_ Htasks].
  - exists 0, (new_task (JitsiMeeting_init "https://meet.jit.si")
                 "INC1001-0a1b2c3d" "IncidentBot").
    split; [by rewrite handle_incident_bot_tasks, Hid, lookup_insert_eq |].
    split; reflexivity.
  - apply (f_equal length) in Htasks.
    rewrite !handle_incident_tasks, !length_app in Htasks. simpl in Htasks. lia.
Qed.

(** C1 (as the code has it). There is no duplicate check. Whatever is
    stored under the incident id, and whatever state that task is in (not
    started, holding, finished), [handle_incident] creates a new task and
    stores it under the id in place of the old one; the old task stays in
    the event loop as it was, and no other entry changes. So a new
    registration succeeds after the first session has ended, and it
    succeeds just the same before. Creation and storing belong to one call
    of [handle_incident]. *)
Theorem registration_replaces_the_entry
    (cfg : settings) (o : oracle) (payload : gmap string pyval) (w : world)
    (t0 : nat) (st : task) :
  let ticket := get payload "ticket_id" in
  let room := str ticket +:+ "-" +:+ token_hex o in
  let w' := (handle_incident cfg o payload w).2 in
  bot_tasks (responder w) !! ticket = Some t0 →
  tasks w !! t0 = Some st →
  bot_tasks (responder w') !! ticket = Some (length (tasks w))
  ∧ length (tasks w) ≠ t0
  ∧ tasks w' !! length (tasks w)
    = Some (new_task (jitsi (responder w)) room (BOT_DISPLAY_NAME cfg))
  ∧ tasks w' !! t0 = Some st
  ∧ ∀ k, k ≠ ticket → bot_tasks (responder w') !! k = bot_tasks (responder w) !! k.
Proof.
  intros ticket room w' Hentry Hst. unfold w'.
  rewrite handle_incident_bot_tasks, handle_incident_tasks. fold ticket room.
  pose proof (lookup_lt_Some _ _ _ Hst) as Hlt.
  split; [apply lookup_insert_eq |].
  split; [lia |].
  split; [by rewrite lookup_app_r, Nat.sub_diag by lia |].
  split; [by rewrite lookup_app_l by lia |].
  intros k Hk. by rewrite lookup_insert_ne.
Qed.

Lemma registration_replaces_the_entry_witness :
  let w1 := (handle_incident cfg_demo oracle_demo (dict ticket_demo) (boot cfg_demo)).2 in
  let w2 := (handle_incident cfg_demo oracle_demo2 (dict ticket_demo) w1).2 in
  bot_tasks (responder w1) !! PStr "INC1001" = Some 0
  ∧ bot_tasks (responder w2) !! PStr "INC1001" = Some 1.
Proof.
  assert (Hid : get (dict ticket_demo) "ticket_id" = PStr "INC1001") by reflexivity.
  assert (H1 : bot_tasks (responder (handle_incident cfg_demo oracle_demo
                 (dict ticket_demo) (boot cfg_demo)).2) !! PStr "INC1001" = Some 0).
  { by rewrite handle_incident_bot_tasks, Hid, lookup_insert_eq. }
  split; [exact H1 |].
  refine (proj1 (registration_replaces_the_entry cfg_demo oracle_demo2
                   (dict ticket_demo) _ 0
                   (new_task (JitsiMeeting_init "https://meet.jit.si")
                      "INC1001-0a1b2c3d" "IncidentBot") _ _)).
  - exact H1.
  - reflexivity.
Defined.

(** C10. Two calls for the same ticket id, with whatever the event loop
    does in between: the first call stores its task under the id; the
    second stores its own in its place and leaves the first task exactly
    as it found it (no cancellation is requested; if the loop gave it no
    turn it still waits to start). After the second call no key of
    [bot_tasks] leads to the first task. *)
Theorem second_call_overwrites_first_task
    (cfg : settings) (o1 o2 : oracle) (p1 p2 : gmap string pyval)
    (between : list (nat * wake)) (w : world) :
  registered_tasks_exist w →
  get p1 "ticket_id" = get p2 "ticket_id" →
  let ticket := get p1 "ticket_id" in
  let first := length (tasks w) in
  let w1 := (handle_incident cfg o1 p1 w).2 in
  let w1' := turns between w1 in
  let w2 := (handle_incident cfg o2 p2 w1').2 in
  bot_tasks (responder w1) !! ticket = Some first
  ∧ bot_tasks (responder w2) !! ticket = Some (S first)
  ∧ tasks w2 !! first = tasks w1' !! first
  ∧ is_Some (tasks w2 !! first)
  ∧ (between = [] →
     ∃ t, tasks w2 !! first = Some t ∧ at_pc t = Start ∧ must_cancel t = false)
  ∧ ∀ k, bot_tasks (responder w2) !! k ≠ Some first.
Proof.
  intros Hw Hsame ticket first w1 w1' w2.
  assert (Hlen1 : length (tasks w1) = S first).
  { unfold w1. rewrite handle_incident_tasks, length_app. simpl. lia. }
  assert (Hlen1' : length (tasks w1') = S first).
  { unfold w1'. by rewrite turns_length. }
  assert (Hbt1 : bot_tasks (responder w1) = <[ticket := first]> (bot_tasks (responder w))).
  { unfold w1. by rewrite handle_incident_bot_tasks. }
  assert (Hbt2 : bot_tasks (responder w2)
                 = <[ticket := S first]> (<[ticket := first]> (bot_tasks (responder w)))).
  { unfold w2. rewrite handle_incident_bot_tasks, <- Hsame. fold ticket.
    rewrite Hlen1'. unfold w1'. by rewrite turns_responder, Hbt1. }
  assert (Hkeep : tasks w2 !! first = tasks w1' !! first).
  { unfold w2. rewrite handle_incident_tasks. apply lookup_app_l. lia. }
  split; [by rewrite Hbt1, lookup_insert_eq |].
  split; [by rewrite Hbt2, lookup_insert_eq |].
  split; [exact Hkeep |].
  split; [rewrite Hkeep; apply lookup_lt_is_Some; lia |].
  split.
  - intros ->. rewrite Hkeep. unfold w1', turns. simpl. unfold w1.
    rewrite handle_incident_tasks.
    eexists. split; [| split].
    + rewrite lookup_app_r by (fold first; lia).
      fold first. rewrite Nat.sub_diag. reflexivity.
    + reflexivity.
    + reflexivity.
  - intros k Hk. rewrite Hbt2 in Hk.
    destruct (decide (ticket = k)) as [<- | Hne].
    + rewrite lookup_insert_eq in Hk. injection Hk. lia.
    + rewrite !lookup_insert_ne in Hk by done.
      apply Hw in Hk. fold first in Hk. lia.
Qed.

Lemma second_call_overwrites_first_task_witness :
  registered_tasks_exist (boot cfg_demo)
  ∧ get (dict ticket_demo) "ticket_id" = get (dict ticket_demo) "ticket_id"
  ∧ ∀ k, bot_tasks (responder
             (handle_incident cfg_demo oracle_demo2 (dict ticket_demo)
                (turns [(0, Ok)]
                   (handle_incident cfg_demo oracle_demo (dict ticket_demo)
                      (boot cfg_demo)).2)).2) !! k ≠ Some 0.
Proof.
  split; [apply boot_registered |]. split; [reflexivity |].
  apply (second_call_overwrites_first_task cfg_demo oracle_demo oracle_demo2
           (dict ticket_demo) (dict ticket_demo) [(0, Ok)] (boot cfg_demo)).
  - apply boot_registered.
  - reflexivity.
Defined.

(** ** What has happened when [handle_incident] returns *)

Lemma smtp_calls_events (P : event → Prop) calls o :
  Forall P (snd <$> calls) → Forall P (smtp_calls calls o).2.
Proof.
  induction calls as [| [st ev] calls IH]; intros H; [constructor |].
  simpl in *. apply Forall_cons in H as [Hev Hrest].
  destruct (fails_at o st); simpl; [by repeat constructor |].
  destruct (smtp_calls calls o) as [r evs] eqn:E. simpl.
  constructor; [done |]. by apply IH.
Qed.

(** Whatever [send_email] does, it is printing or SMTP. *)
Lemma send_email_events cfg o subject body recipients attachments from_name :
  Forall (λ e, from_send_email e = true)
    (send_email cfg o subject body recipients attachments from_name).2.
Proof.
  unfold send_email.
  destruct (falsy (SMTP_USER cfg) || falsy (SMTP_PASSWORD cfg)); [by repeat constructor |].
  destruct (compose cfg o subject body recipients attachments from_name) as [e | msg];
    [constructor |].
  match goal with
  | |- context [smtp_calls ?cs ?so] =>
      pose proof (smtp_calls_events (λ e, from_send_email e = true) cs so) as H;
      destruct (smtp_calls cs so) as [r evs]
  end.
  simpl in H. specialize (H ltac:(repeat constructor)).
  destruct r; simpl; [| done].
  apply Forall_app. split; [done |]. by repeat constructor.
Qed.

Lemma invite_no_await cfg o ticket summary url rs :
  Forall (λ e, is_await e = false) (invite cfg o ticket summary url rs).2.
Proof.
  unfold invite. destruct rs as [| r rs]; [by repeat constructor |].
  unfold send_invites_with_ics.
  match goal with
  | |- context [send_email ?a ?b ?c ?d ?e ?f ?g] =>
      pose proof (send_email_events a b c d e f g) as H;
      destruct (send_email a b c d e f g) as [res evs]
  end.
  simpl in *. constructor; [done |].
  eapply Forall_impl; [exact H |]. by intros [].
Qed.

(** What a composed message is made of, and what the strings it is made
    of had to pass. *)
Lemma compose_message cfg o subject body recipients attachments from_name msg :
  compose cfg o subject body recipients attachments from_name = inr msg →
  ∃ to atts,
    join ", " recipients = Some to
    ∧ attach attachments = Some atts
    ∧ msg = {| Subject := subject;
               From := (or_else from_name (FROM_NAME cfg), str_opt (SMTP_USER cfg));
               To := to;
               content := body;
               attached := atts |}
    ∧ multiline subject = false
    ∧ multiline to = false
    ∧ is_ascii (str_opt (SMTP_USER cfg)) = true
    ∧ from_refused (or_else from_name (FROM_NAME cfg)) (str_opt (SMTP_USER cfg)) = false.
Proof.
  unfold compose.
  destruct (fails_at (smtp o) SCompose); [done |].
  destruct (multiline subject) eqn:Hs; [done |].
  destruct (is_ascii (str_opt (SMTP_USER cfg))) eqn:Ha; [| done]. simpl.
  destruct (from_refused _ _) eqn:Hf; [done |].
  destruct (join ", " recipients) as [to |]; [| done].
  destruct (multiline to) eqn:Ht; [done |].
  destruct (attach attachments) as [atts |]; [| done].
  intros [= <-]. by eauto 10.
Qed.

(** With credentials, [send_email] returns normally only after it has handed
    a composed message to the server. *)
Lemma send_email_returned cfg o subject body recipients attachments from_name evs :
  falsy (SMTP_USER cfg) || falsy (SMTP_PASSWORD cfg) = false →
  send_email cfg o subject body recipients attachments from_name = (Return, evs) →
  ∃ msg,
    compose cfg o subject body recipients attachments from_name = inr msg
    ∧ evs = [SmtpConnect (SMTP_HOST cfg) (SMTP_PORT cfg); SmtpEhlo; SmtpStartTls;
             SmtpLogin (str_opt (SMTP_USER cfg)) (str_opt (SMTP_PASSWORD cfg));
             SmtpSendMessage msg;
             Print (LogEmailSent recipients (SMTP_HOST cfg) (SMTP_PORT cfg))].
Proof.
  intros Hcred. unfold send_email. rewrite Hcred.
  destruct (compose cfg o subject body recipients attachments from_name)
    as [e | m]; [done |].
  destruct (smtp o) as [| st error]; [| destruct st]; simpl;
    intros [= <-]; by eauto.
Qed.

(** INC1001 with credentials and a working server: the message to
    b@x.com and a@x.com has been sent when the call returns. *)
Lemma invite_is_sent_before_return :
  let rw := handle_incident cfg_demo oracle_demo (dict ticket_demo) (boot cfg_demo) in
  rw.1 = Return
  ∧ (∃ msg, To msg = "b@x.com, a@x.com"
            ∧ emitted (boot cfg_demo) rw.2 !! 8 = Some (SmtpSendMessage msg))
  ∧ ¬ returns_before_both_finish cfg_demo oracle_demo (dict ticket_demo)
        (boot cfg_demo).
Proof.
  simpl. split; [reflexivity |]. split.
  - eexists. split; [| reflexivity]. reflexivity.
  - intros [_ H]. eapply H.
    eapply (list_elem_of_lookup_2 _ 8). reflexivity.
Qed.

(** C2 (as the code has it). The bot session is detached: when
    [handle_incident] returns, exactly one task has been added to the event
    loop, it has not run a single line (so it is not holding, nor even
    launching), the call has awaited nothing, and the tasks that were there
    are untouched. The invite is not detached: it is sent inside the call.
    The call ends the way step 3 ends, everything step 3 causes has
    happened before the return, and a call that returns normally with the
    credentials set and a recipient has by then handed the message, with
    the incident's subject and all recipients in its [To] header, to the
    mail server, after which it has printed its last two lines. *)
Theorem handle_incident_detaches_bot_and_sends_inline
    (cfg : settings) (o : oracle) (payload : gmap string pyval) (w : world) :
  let rw := handle_incident cfg o payload w in
  let ticket := get payload "ticket_id" in
  let summary := get_or payload "summary" (PStr "") in
  let room := str ticket +:+ "-" +:+ token_hex o in
  let rs := recipients_of cfg (get payload "reporter_email") in
  let step3 := invite cfg o ticket summary
                 (room_url (jitsi (responder w)) room) rs in
  (∃ t, tasks rw.2 = tasks w ++ [t]
        ∧ at_pc t = Start ∧ must_cancel t = false ∧ coro_room t = room)
  ∧ Forall (λ e, is_await e = false) (emitted w rw.2)
  ∧ rw.1 = step3.1
  ∧ (∀ e, e ∈ step3.2 → e ∈ emitted w rw.2)
  ∧ (rw.1 = Return →
     falsy (SMTP_USER cfg) || falsy (SMTP_PASSWORD cfg) = false →
     rs ≠ [] →
     ∃ msg before,
       join ", " rs = Some (To msg)
       ∧ Subject msg = "[SEV-1] " +:+ str ticket +:+ ": " +:+ str summary
       ∧ emitted w rw.2
         = before ++ [SmtpSendMessage msg;
                      Print (LogEmailSent rs (SMTP_HOST cfg) (SMTP_PORT cfg));
                      Print (LogCompleted ticket)]).
Proof.
  intros rw ticket summary room rs step3.
  assert (Hem : ∀ e, e ∈ step3.2 → e ∈ emitted w rw.2).
  { intros e He. unfold rw. rewrite handle_incident_emitted.
    fold ticket summary room rs step3. rewrite !elem_of_app. tauto. }
  split; [| split; [| split; [| split]]].
  - eexists. split; [apply handle_incident_tasks |]. done.
  - unfold rw. rewrite handle_incident_emitted.
    apply Forall_app. split; [by repeat constructor |].
    apply Forall_app. split; [apply invite_no_await |].
    destruct (invite _ _ _ _ _ _).1; by repeat constructor.
  - apply handle_incident_result.
  - exact Hem.
  - intros Hret Hcred Hrs.
    unfold rw in Hret. rewrite handle_incident_result in Hret.
    fold ticket summary room rs step3 in Hret.
    unfold rw. rewrite handle_incident_emitted.
    fold ticket summary room rs step3. rewrite Hret.
    assert (∃ msg evs, join ", " rs = Some (To msg)
                       ∧ Subject msg = subject_of ticket summary
                       ∧ step3.2 = evs ++ [SmtpSendMessage msg;
                                           Print (LogEmailSent rs (SMTP_HOST cfg) (SMTP_PORT cfg))])
      as (msg & evs & Hto & Hsub & Hev).
    { revert Hret. unfold step3, invite. destruct rs as [| r rs'] eqn:Ers; [done |].
      unfold send_invites_with_ics.
      match goal with
      | |- context [send_email ?a ?b ?c ?d ?e ?f ?g] =>
          pose proof (send_email_returned a b c d e f g) as Hsent;
          destruct (send_email a b c d e f g) as [res evs]
      end.
      cbn [fst snd]. intros ->.
      destruct (Hsent evs Hcred eq_refl) as (msg & Hc & ->).
      apply compose_message in Hc as (to & atts & Hjoin & _ & -> & _).
      eexists _, [Print (LogSendingInvites (r :: rs')); _; _; _; _].
      (split; [| split]); [| | reflexivity]; [exact Hjoin | reflexivity]. }
    exists msg, ([Print (LogHandling ticket summary);
                  Print (LogStartingBot room (room_url (jitsi (responder w)) room));
                  CreateTask (length (tasks w)) room (BOT_DISPLAY_NAME cfg)] ++ evs).
    split; [exact Hto |]. split; [exact Hsub |].
    rewrite Hev. by rewrite <- !app_assoc.
Qed.

Lemma handle_incident_detaches_bot_and_sends_inline_witness :
  (handle_incident cfg_demo oracle_demo (dict ticket_demo) (boot cfg_demo)).1 = Return
  ∧ falsy (SMTP_USER cfg_demo) || falsy (SMTP_PASSWORD cfg_demo) = false
  ∧ recipients_of cfg_demo (get (dict ticket_demo) "reporter_email") ≠ []
  ∧ ∃ msg before,
      join ", " (recipients_of cfg_demo (get (dict ticket_demo) "reporter_email"))
      = Some (To msg)
      ∧ Subject msg = "[SEV-1] INC1001: DB cluster down"
      ∧ emitted (boot cfg_demo)
          (handle_incident cfg_demo oracle_demo (dict ticket_demo) (boot cfg_demo)).2
        = before ++ [SmtpSendMessage msg;
                     Print (LogEmailSent
                              (recipients_of cfg_demo
                                 (get (dict ticket_demo) "reporter_email"))
                              (SMTP_HOST cfg_demo) (SMTP_PORT cfg_demo));
                     Print (LogCompleted (get (dict ticket_demo) "ticket_id"))].
Proof.
  split; [reflexivity |]. split; [reflexivity |]. split; [done |].
  pose proof (handle_incident_detaches_bot_and_sends_inline cfg_demo oracle_demo
                (dict ticket_demo) (boot cfg_demo)) as H.
  destruct H as (_ & _ & _ & _ & H).
  exact (H eq_refl eq_refl ltac:(done)).
Defined.

(** ** Releasing the browser *)

Lemma releases_app evs evs' : releases (evs ++ evs') = releases evs + releases evs'.
Proof. unfold releases. by rewrite filter_app, length_app. Qed.

Lemma cancel_at_pc t : at_pc (cancel t) = at_pc t.
Proof. unfold cancel. by destruct (done t). Qed.

(** Asking twice is asking once. *)
Lemma cancel_idempotent t : cancel (cancel t) = cancel t.
Proof.
  unfold cancel. destruct (done t) eqn:E; [by rewrite E |].
  unfold done in *. simpl. by rewrite E.
Qed.

Lemma joined_app evs evs' : joined (evs ++ evs') = joined evs || joined evs'.
Proof. apply existsb_app. Qed.

Lemma step_closes t wk j n :
  closes_so_far (at_pc t) j n →
  closes_so_far (at_pc (step t wk).1)
    (j || joined (step t wk).2) (n + releases (step t wk).2).
Proof.
  destruct t as [self room display p mc]. unfold step. simpl.
  destruct p as [| | | | | | | | | | [e |] | r], mc, wk as [| [name |]], j;
    simpl; unfold releases; simpl; intuition (try discriminate; try lia).
Qed.

Lemma run_closes ss : ∀ t j n,
  closes_so_far (at_pc t) j n →
  closes_so_far (at_pc (run t ss).1)
    (j || joined (run t ss).2) (n + releases (run t ss).2).
Proof.
  induction ss as [| [wk |] ss IH]; intros t j n H; simpl.
  - by rewrite orb_false_r, Nat.add_0_r.
  - pose proof (step_closes t wk j n H) as Hs.
    destruct (step t wk) as [t' evs]. simpl in Hs.
    specialize (IH t' _ _ Hs). destruct (run t' ss) as [t'' evs']. simpl in *.
    by rewrite releases_app, joined_app, orb_assoc, Nat.add_assoc.
  - apply IH. by rewrite cancel_at_pc.
Qed.

(** What every run of the bot does with the browser: [browser.close()] is
    called once the hold loop is left, and only then. *)
Lemma run_closes_from_start self room display ss :
  let '(t, evs) := run (new_task self room display) ss in
  closes_so_far (at_pc t) (joined evs) (releases evs).
Proof.
  pose proof (run_closes ss (new_task self room display) false 0) as H.
  specialize (H (conj eq_refl eq_refl)).
  by destruct (run (new_task self room display) ss) as [t evs].
Qed.

(** X17. No run of the bot, whatever the awaited operations do and
    however often it is cancelled, calls [browser.close()] twice. *)
Lemma browser_closed_at_most_once self room display ss :
  releases (run (new_task self room display) ss).2 ≤ 1.
Proof.
  pose proof (run_closes_from_start self room display ss) as H.
  destruct (run (new_task self room display) ss) as [t evs]. simpl.
  destruct (at_pc t) as [| | | | | | | | | | e | r], (joined evs);
    simpl in H; lia.
Qed.

(** X18. A run that is over has closed the browser exactly when the bot
    had joined: every exit before that leaves the browser open. *)
Lemma finished_run_closes_iff_joined self room display ss r :
  let '(t, evs) := run (new_task self room display) ss in
  at_pc t = Finished r →
  releases evs = (if joined evs then 1 else 0).
Proof.
  pose proof (run_closes_from_start self room display ss) as H.
  destruct (run (new_task self room display) ss) as [t evs].
  intros Hfin. by rewrite Hfin in H.
Qed.

Lemma run_cancels n t :
  run t (replicate (S n) CallCancel) = (cancel t, []).
Proof.
  revert t. induction n as [| n IH]; intros t; [done |].
  change (run t (replicate (S (S n)) CallCancel))
    with (run (cancel t) (replicate (S n) CallCancel)).
  by rewrite IH, cancel_idempotent.
Qed.

Lemma run_app t ss ss' :
  run t (ss ++ ss')
  = let '(t', evs) := run t ss in
    let '(t'', evs') := run t' ss' in (t'', evs ++ evs').
Proof.
  revert t. induction ss as [| [wk |] ss IH]; intros t; simpl.
  - by destruct (run t ss').
  - destruct (step t wk) as [t1 e1]. rewrite IH.
    destruct (run t1 ss) as [t2 e2]. destruct (run t2 ss') as [t3 e3].
    by rewrite app_assoc.
  - apply IH.
Qed.

(** X19. The path the [finally] block covers: a bot that holds the room
    and is cancelled, once or many times before it next runs, prints its
    message, calls [browser.close()] once and returns; the task ends
    normally, not as a cancelled one. *)
Lemma cancelled_while_holding_closes_once t n wk :
  at_pc t = AtHold →
  let '(t', evs) := run t (replicate (S n) CallCancel ++ [Wake wk; Wake Ok]) in
  at_pc t' = Finished Return
  ∧ evs = [Print LogBotCancelled; Await BrowserClose]
  ∧ releases evs = 1.
Proof.
  intros Hpc. rewrite run_app, run_cancels.
  destruct t as [self room display p mc]. simpl in Hpc. subst p.
  by destruct wk.
Qed.

(** C3, where the code departs from it. The browser is launched, the
    page opens, and [page.goto] raises (a navigation timeout): the
    exception leaves [start_bot_and_hold], the session has failed, a browser
    was acquired, and [browser.close()] was never called. The only [try ...
    finally] with the close in it starts after the bot has joined. *)
Theorem navigation_timeout_leaks_the_browser
    (self : JitsiMeeting) (room_name display_name : string) :
  let '(t, evs) := run (new_task self room_name display_name) navigation_times_out in
  at_pc t = Finished (Raise (Exception "TimeoutError"))
  ∧ phase_of (at_pc t) = Failed
  ∧ evs = [Print (LogLaunching (room_url self room_name)); Await Launch;
           Await NewPage; SetNavigationTimeout 60000;
           Await (Goto (room_url self room_name))]
  ∧ acquired evs = true
  ∧ releases evs = 0.
Proof. done. Qed.

(** ** The join URL *)

Lemma all_chars_app P s s' :
  all_chars P (s +:+ s') = all_chars P s && all_chars P s'.
Proof.
  induction s as [| c s IH]; [done |].
  simpl. by rewrite IH, andb_assoc.
Qed.

Lemma all_chars_replace P Q a b s :
  (∀ c, P c = true → Q (if Ascii.eqb c a then b else c) = true) →
  all_chars P s = true → all_chars Q (replace_char a b s) = true.
Proof.
  intros HPQ. induction s as [| c s IH]; [done |].
  simpl. rewrite !andb_true_iff. intros [Hc Hs]. split; [by apply HPQ | by apply IH].
Qed.

Lemma quoter_plain c : all_chars encoded_char (quoter [] c) = true.
Proof. by destruct c as [[] [] [] [] [] [] [] []]. Qed.

Lemma quoter_space c :
  all_chars (λ a, encoded_char a || Ascii.eqb a " ") (quoter [" "%char] c) = true.
Proof. by destruct c as [[] [] [] [] [] [] [] []]. Qed.

Lemma quote_plus_chars s : all_chars encoded_char (quote_plus s) = true.
Proof.
  unfold quote_plus. destruct (negb (contains_char " " s)).
  - induction s as [| c s IH]; [done |].
    simpl. by rewrite all_chars_app, quoter_plain, IH.
  - apply (all_chars_replace (λ a, encoded_char a || Ascii.eqb a " ")).
    + intros c Hc. destruct (Ascii.eqb c " ") eqn:E; [done |].
      by rewrite orb_false_r in Hc.
    + induction s as [| c s IH]; [done |].
      simpl. by rewrite all_chars_app, quoter_space, IH.
Qed.

Lemma replace_char_app a b s s' :
  replace_char a b (s +:+ s') = replace_char a b s +:+ replace_char a b s'.
Proof. induction s as [| c s IH]; [done |]. simpl. by rewrite IH. Qed.

Lemma decode_quoter_plain c rest :
  decode (quoter [] c +:+ rest) = String c (decode rest).
Proof. by destruct c as [[] [] [] [] [] [] [] []]. Qed.

Lemma decode_quoter_space c rest :
  decode (replace_char " " "+" (quoter [" "%char] c) +:+ rest)
  = String c (decode rest).
Proof. by destruct c as [[] [] [] [] [] [] [] []]. Qed.

(** The encoded room name determines the room name. *)
Lemma decode_quote_plus s : decode (quote_plus s) = s.
Proof.
  unfold quote_plus. destruct (negb (contains_char " " s)).
  - induction s as [| c s IH]; [done |].
    simpl. by rewrite decode_quoter_plain, IH.
  - induction s as [| c s IH]; [done |].
    simpl. by rewrite replace_char_app, decode_quoter_space, IH.
Qed.

Lemma quote_plus_inj s s' : quote_plus s = quote_plus s' → s = s'.
Proof.
  intros H. rewrite <- (decode_quote_plus s), <- (decode_quote_plus s').
  by rewrite H.
Qed.

Lemma append_length (a b : string) :
  String.length (a +:+ b) = String.length a + String.length b.
Proof. induction a as [| x a IH]; [done |]. simpl. by rewrite IH. Qed.

Lemma append_inv_head (a b c : string) : a +:+ b = a +:+ c → b = c.
Proof.
  induction a as [| x a IH]; intros H; [done |].
  apply IH. by injection H.
Qed.

Lemma append_inv_tail (c : string) : ∀ a b : string, a +:+ c = b +:+ c → a = b.
Proof.
  induction a as [| x a IH]; intros [| y b] H; [done | | |].
  - apply (f_equal String.length) in H.
    rewrite !append_length in H. simpl in H. lia.
  - apply (f_equal String.length) in H.
    rewrite !append_length in H. simpl in H. lia.
  - injection H as -> H. f_equal. by apply IH.
Qed.

(** X4. Two room names give the same join URL only if they are the same:
    [quote_plus] loses nothing of the name. *)
Lemma room_url_inj self room room' :
  room_url self room = room_url self room' → room = room'.
Proof.
  unfold room_url. intros H. apply quote_plus_inj.
  apply append_inv_head, append_inv_head in H.
  by apply append_inv_tail in H.
Qed.

(** ** The base URL and the room name *)

Lemma rstrip_splits chars s :
  ∃ t, s = rstrip chars s +:+ t
       ∧ all_chars (λ c, existsb (Ascii.eqb c) chars) t = true.
Proof.
  induction s as [| a s (t & Hs & Ht)]; [by exists "" |].
  simpl. destruct (rstrip chars s) as [| b r] eqn:E.
  - destruct (existsb (Ascii.eqb a) chars) eqn:Ha.
    + exists (String a t). simpl in *. rewrite Hs at 1. split; [done |].
      by rewrite Ha, Ht.
    + exists t. simpl in *. by rewrite Hs at 1.
  - exists t. simpl in *. by rewrite Hs at 1.
Qed.

Lemma rstrip_last chars s c :
  last_char (rstrip chars s) = Some c → existsb (Ascii.eqb c) chars = false.
Proof.
  induction s as [| a s IH]; [done |].
  simpl. destruct (rstrip chars s) as [| b r] eqn:E.
  - destruct (existsb (Ascii.eqb a) chars) eqn:Ha; [done |].
    simpl. intros [= <-]. done.
  - intros H. apply IH. exact H.
Qed.

Lemma all_chars_ext (P Q : ascii → bool) s :
  (∀ c, P c = Q c) → all_chars P s = all_chars Q s.
Proof.
  intros H. induction s as [| c s IH]; [done |]. simpl. by rewrite H, IH.
Qed.

(** X1. [JitsiMeeting.__init__] removes the trailing slashes of the
    configured base URL and nothing else: the configured value is the
    stored one followed by slashes only, and the stored one does not end
    in a slash. So in every join URL exactly the one slash that [room_url]
    writes stands between the base and the room. *)
Theorem init_strips_trailing_slashes (base : string) :
  let self := JitsiMeeting_init base in
  (∃ slashes, base = jitsi_base self +:+ slashes
              ∧ all_chars (λ c, Ascii.eqb c "/") slashes = true)
  ∧ last_char (jitsi_base self) ≠ Some "/"%char
  ∧ JitsiMeeting_init (jitsi_base self) = self.
Proof.
  simpl. split; [| split].
  - destruct (rstrip_splits ["/"%char] base) as (t & Hs & Ht).
    exists t. split; [done |].
    rewrite (all_chars_ext _ (λ c, existsb (Ascii.eqb c) ["/"%char])); [done |].
    intros c. simpl. by rewrite orb_false_r.
  - intros H. by apply rstrip_last in H.
  - unfold JitsiMeeting_init. simpl. f_equal.
    assert (Hid : ∀ s, last_char s ≠ Some "/"%char → rstrip ["/"%char] s = s).
    { induction s as [| a s IH]; [done |].
      intros Hl. simpl. destruct s as [| b s].
      - simpl in *. destruct (Ascii.eqb_spec a "/"); [by subst |]. done.
      - rewrite IH by exact Hl. done. }
    apply Hid. intros H. by apply rstrip_last in H.
Qed.

Lemma quoter_no_space c :
  Ascii.eqb c " " = false → quoter [] c = quote_plus_byte c.
Proof. by destruct c as [[] [] [] [] [] [] [] []]. Qed.

(** [quote_plus] works byte by byte. *)
Lemma quote_plus_cons c r :
  quote_plus (String c r) = quote_plus_byte c +:+ quote_plus r.
Proof.
  assert (Hplain : ∀ t, contains_char " " t = false →
            quote_from_bytes [] t = replace_char " " "+" (quote_from_bytes [" "%char] t)).
  { induction t as [| x t IH]; [done |].
    simpl. intros H. apply orb_false_iff in H as [Hx Ht].
    by rewrite replace_char_app, <- IH, quoter_no_space. }
  assert (Hall : ∀ t, quote_plus t = replace_char " " "+" (quote_from_bytes [" "%char] t)).
  { intros t. unfold quote_plus. destruct (contains_char " " t) eqn:E; [done |].
    by apply Hplain. }
  rewrite (Hall (String c r)), (Hall r). simpl. by rewrite replace_char_app.
Qed.

Lemma append_assoc (a b c : string) : (a +:+ b) +:+ c = a +:+ b +:+ c.
Proof.
  induction a as [| x a IH]; [done |].
  change (String x ((a +:+ b) +:+ c) = String x (a +:+ b +:+ c)).
  by rewrite IH.
Qed.

Lemma quote_plus_app a b : quote_plus (a +:+ b) = quote_plus a +:+ quote_plus b.
Proof.
  induction a as [| c a IH]; [done |].
  change (String c a +:+ b) with (String c (a +:+ b)).
  by rewrite !quote_plus_cons, IH, append_assoc.
Qed.

Lemma quote_plus_safe s : all_chars ALWAYS_SAFE s = true → quote_plus s = s.
Proof.
  induction s as [| c s IH]; [done |].
  simpl. intros H. apply andb_true_iff in H as [Hc Hs].
  rewrite quote_plus_cons, IH by done.
  unfold quote_plus_byte, quoter. rewrite Hc. simpl.
  destruct (Ascii.eqb_spec c " ") as [-> | _]; [done | done].
Qed.

(** ** The join URL, spelled out *)

(** [quote_plus] is the spelled-out encoding. *)
Lemma quote_plus_byte_form c : quote_plus_byte c = form_urlencoded_byte c.
Proof. by destruct c as [[] [] [] [] [] [] [] []]. Qed.

Lemma quote_plus_form s : quote_plus s = form_urlencoded s.
Proof.
  induction s as [| c s IH]; [done |].
  rewrite quote_plus_cons, quote_plus_byte_form, IH. done.
Qed.

(** [rstrip] leaves a string alone that does not end in one of the
    characters. *)
Lemma rstrip_keeps s : last_char s ≠ Some "/"%char → rstrip ["/"%char] s = s.
Proof.
  induction s as [| a s IH]; [done |].
  intros Hl. simpl. destruct s as [| b s].
  - simpl in *. destruct (Ascii.eqb_spec a "/"); [by subst |]. done.
  - rewrite IH by exact Hl. done.
Qed.

(** A base URL configured with a trailing slash: the join URL has one
    slash before the room, not the two that base + "/" + room would
    give. *)
Lemma trailing_slash_of_the_base_is_dropped :
  room_url (JitsiMeeting_init "https://meet.jit.si/") "INC1001-0a1b2c3d"
  = "https://meet.jit.si/INC1001-0a1b2c3d?config.startWithAudioMuted=true&config.startWithVideoMuted=true"
  ∧ "https://meet.jit.si/" +:+ "/" +:+ quote_plus "INC1001-0a1b2c3d"
    +:+ "?config.startWithAudioMuted=true&config.startWithVideoMuted=true"
    = "https://meet.jit.si//INC1001-0a1b2c3d?config.startWithAudioMuted=true&config.startWithVideoMuted=true"
  ∧ ¬ join_url_is_base_slash_room "https://meet.jit.si/" "INC1001-0a1b2c3d".
Proof.
  split; [reflexivity |]. split; [reflexivity |].
  unfold join_url_is_base_slash_room. vm_compute. discriminate.
Qed.

(** C6 (as the code has it). For every room id the join URL is the base
    URL the meeting object holds, a slash, the encoded room id and the two
    mute parameters. The base held is the configured one without its
    trailing slashes, so the URL is the configured base, a slash, and the
    rest exactly when the configured base does not end in a slash. The
    room id is encoded byte by byte: letters, digits and [_.-~] stand for
    themselves, a space becomes [+], any other byte becomes [%] and two
    upper-case hex digits; the room id can be read back from it. *)
Theorem room_url_is_stripped_base_slash_encoded_room_query (base room : string) :
  let qp := "?config.startWithAudioMuted=true&config.startWithVideoMuted=true" in
  (∀ self : JitsiMeeting,
     room_url self room = jitsi_base self +:+ "/" +:+ form_urlencoded room +:+ qp)
  ∧ (∃ stem slashes,
       base = stem +:+ slashes
       ∧ all_chars (λ c, Ascii.eqb c "/") slashes = true
       ∧ last_char stem ≠ Some "/"%char
       ∧ room_url (JitsiMeeting_init base) room
         = stem +:+ "/" +:+ form_urlencoded room +:+ qp)
  ∧ decode (form_urlencoded room) = room
  ∧ (join_url_is_base_slash_room base room ↔ last_char base ≠ Some "/"%char).
Proof.
  intros qp. split; [| split; [| split]].
  - intros self. unfold room_url. by rewrite quote_plus_form.
  - destruct (rstrip_splits ["/"%char] base) as (t & Hs & Ht).
    exists (rstrip ["/"%char] base), t. split; [exact Hs |]. split; [| split].
    + rewrite (all_chars_ext _ (λ c, existsb (Ascii.eqb c) ["/"%char])); [done |].
      intros c. simpl. by rewrite orb_false_r.
    + intros H. by apply rstrip_last in H.
    + unfold room_url, JitsiMeeting_init. simpl. by rewrite quote_plus_form.
  - rewrite <- quote_plus_form. apply decode_quote_plus.
  - unfold join_url_is_base_slash_room, room_url, JitsiMeeting_init. simpl. split.
    + intros H. apply append_inv_tail in H. rewrite <- H.
      intros Hl. by apply rstrip_last in Hl.
    + intros Hl. by rewrite rstrip_keeps.
Qed.

Lemma room_url_is_stripped_base_slash_encoded_room_query_witness :
  last_char "https://meet.jit.si" ≠ Some "/"%char
  ∧ join_url_is_base_slash_room "https://meet.jit.si" "INC 1001/é".
Proof.
  assert (H : last_char "https://meet.jit.si" ≠ Some "/"%char) by done.
  split; [exact H |].
  destruct (room_url_is_stripped_base_slash_encoded_room_query
              "https://meet.jit.si" "INC 1001/é") as (_ & _ & _ & Hiff).
  exact (proj2 Hiff H).
Defined.

(** ** The severity gate *)

(** C9. [handle_incident] never looks at the severity: whatever is stored
    under "severity" (or nothing at all), the call does the same thing.
    It always builds a room: the room name is the ticket id, a dash and
    the random token, and the join URL announced is the base URL, a slash,
    the encoded room name and the mute parameters. And it always starts a
    bot session: exactly one task is added and registered under the ticket
    id, it is alive and not cancelled, and on its first turns it launches
    the browser, opens a page and navigates to that URL. The gate is in
    the endpoint alone: a request reaches [handle_incident] exactly when
    its severity is 1. *)
Theorem handle_incident_does_not_check_severity
    (cfg : settings) (o : oracle) (payload : gmap string pyval) (v : pyval)
    (w : world) (p : TicketPayload) :
  handle_incident cfg o (<["severity" := v]> payload) w
  = handle_incident cfg o payload w
  ∧ handle_incident cfg o (delete "severity" payload) w
    = handle_incident cfg o payload w
  ∧ (let ticket := get payload "ticket_id" in
     let room := str ticket +:+ "-" +:+ token_hex o in
     let url := jitsi_base (jitsi (responder w)) +:+ "/" +:+ form_urlencoded room
                +:+ "?config.startWithAudioMuted=true&config.startWithVideoMuted=true" in
     let w' := (handle_incident cfg o payload w).2 in
     Print (LogStartingBot room url) ∈ emitted w w'
     ∧ CreateTask (length (tasks w)) room (BOT_DISPLAY_NAME cfg) ∈ emitted w w'
     ∧ bot_tasks (responder w') !! ticket = Some (length (tasks w))
     ∧ ∃ t, tasks w' = tasks w ++ [t]
            ∧ at_pc t = Start ∧ must_cancel t = false
            ∧ coro_room t = room ∧ coro_display t = BOT_DISPLAY_NAME cfg
            ∧ (run t [Wake Ok; Wake Ok; Wake Ok]).2
              = [Print (LogLaunching url); Await Launch; Await NewPage;
                 SetNavigationTimeout 60000; Await (Goto url)])
  ∧ (post_ticket cfg o p w).2
    = (if (severity p =? 1)%Z then (handle_incident cfg o (dict p) w).2 else w).
Proof.
  split; [| split; [| split]].
  - apply handle_incident_ext.
    + by apply get_insert_ne.
    + by apply get_or_insert_ne.
    + by apply get_insert_ne.
  - apply handle_incident_ext.
    + by apply get_delete_ne.
    + by apply get_or_delete_ne.
    + by apply get_delete_ne.
  - cbv zeta.
    rewrite handle_incident_emitted, handle_incident_bot_tasks.
    unfold room_url. rewrite quote_plus_form.
    split; [apply list_elem_of_further, list_elem_of_here |].
    split; [do 2 apply list_elem_of_further; apply list_elem_of_here |].
    split; [apply lookup_insert_eq |].
    eexists. split; [apply handle_incident_tasks |].
    repeat (split; [reflexivity |]).
    simpl. unfold room_url. by rewrite quote_plus_form.
  - unfold post_ticket, create_ticket.
    by destruct (severity p =? 1)%Z.
Qed.

Lemma hex_length bs : String.length (hex bs) = 2 * length bs.
Proof. induction bs as [| b bs IH]; [done |]. simpl. rewrite IH. lia. Qed.

Lemma hex_lower bs : all_chars lower_hex (hex bs) = true.
Proof.
  induction bs as [| b bs IH]; [done |].
  simpl. rewrite IH. by destruct b.
Qed.

Lemma lower_hex_safe s : all_chars lower_hex s = true → all_chars ALWAYS_SAFE s = true.
Proof.
  induction s as [| c s IH]; [done |].
  simpl. intros H. apply andb_true_iff in H as [Hc Hs]. rewrite IH by done.
  rewrite andb_true_r. revert Hc. by destruct c as [[] [] [] [] [] [] [] []].
Qed.

(** X2. The room name [handle_incident] builds ends in a dash and two
    lower-case hex digits per random byte, and that ending goes into the
    join URL as it is: the URL is the base, a slash, the encoded ticket id,
    the dash, the token, and the mute parameters. *)
Theorem room_name_ends_in_token (o : oracle) (self : JitsiMeeting) (ticket : pyval) :
  let room := str ticket +:+ "-" +:+ token_hex o in
  String.length (token_hex o) = 2 * length (token_bytes o)
  ∧ all_chars lower_hex (token_hex o) = true
  ∧ room_url self room
    = jitsi_base self +:+ "/" +:+ quote_plus (str ticket) +:+ "-" +:+ token_hex o
      +:+ "?config.startWithAudioMuted=true&config.startWithVideoMuted=true".
Proof.
  simpl. split; [apply hex_length |]. split; [apply hex_lower |].
  unfold room_url. rewrite !quote_plus_app.
  rewrite (quote_plus_safe "-") by done.
  rewrite (quote_plus_safe (token_hex o)) by apply lower_hex_safe, hex_lower.
  by rewrite !append_assoc.
Qed.

Lemma hex_digits_inj b b' :
  hex_digit false (Byte.to_N b / 16) = hex_digit false (Byte.to_N b' / 16) →
  hex_digit false (Byte.to_N b mod 16) = hex_digit false (Byte.to_N b' mod 16) →
  b = b'.
Proof.
  set (val := λ c : ascii, let n := N_of_ascii c in
                (if n <? 58 then n - 48 else n - 87)%N).
  assert (Hdec : ∀ x : byte,
            Byte.of_N (16 * val (hex_digit false (Byte.to_N x / 16))
                       + val (hex_digit false (Byte.to_N x mod 16))) = Some x).
  { intros x. by destruct x. }
  intros H1 H2. pose proof (Hdec b) as Hb. rewrite H1, H2, Hdec in Hb.
  by injection Hb.
Qed.

Lemma hex_inj bs : ∀ bs', hex bs = hex bs' → bs = bs'.
Proof.
  induction bs as [| b bs IH]; intros [| b' bs'] H; try done.
  simpl in H. injection H as H1 H2 H3.
  f_equal; [by apply hex_digits_inj | by apply IH].
Qed.

(** X3. Two calls for the same ticket that draw different random bytes
    get different room names and different join URLs. *)
Theorem different_tokens_different_rooms
    (o o' : oracle) (self : JitsiMeeting) (ticket : pyval) :
  token_bytes o ≠ token_bytes o' →
  let room := str ticket +:+ "-" +:+ token_hex o in
  let room' := str ticket +:+ "-" +:+ token_hex o' in
  room ≠ room' ∧ room_url self room ≠ room_url self room'.
Proof.
  intros Hne room room'.
  assert (Hrooms : room ≠ room').
  { intros H. apply Hne, hex_inj. unfold room, room' in H.
    by apply append_inv_head, append_inv_head in H. }
  split; [exact Hrooms |].
  intros H. apply Hrooms. unfold room_url in H. apply quote_plus_inj.
  apply append_inv_head, append_inv_head in H. by apply append_inv_tail in H.
Qed.

Lemma different_tokens_different_rooms_witness :
  token_bytes oracle_demo ≠ token_bytes oracle_demo2
  ∧ room_url (JitsiMeeting_init "https://meet.jit.si")
      (str (PStr "INC1001") +:+ "-" +:+ token_hex oracle_demo)
    ≠ room_url (JitsiMeeting_init "https://meet.jit.si")
        (str (PStr "INC1001") +:+ "-" +:+ token_hex oracle_demo2).
Proof.
  split; [done |].
  apply (different_tokens_different_rooms oracle_demo oracle_demo2
           (JitsiMeeting_init "https://meet.jit.si") (PStr "INC1001")).
  done.
Defined.

(** ** The bot session, from its first line to its last *)

Lemma room_url_inj_witness :
  room_url (JitsiMeeting_init "https://meet.jit.si") "DB down-0a1b2c3d"
  = "https://meet.jit.si/DB+down-0a1b2c3d?config.startWithAudioMuted=true&config.startWithVideoMuted=true"
  ∧ "DB down-0a1b2c3d" = "DB down-0a1b2c3d".
Proof.
  split; [reflexivity |].
  apply (room_url_inj (JitsiMeeting_init "https://meet.jit.si")).
  reflexivity.
Defined.

Lemma joined_run_prefix t ss ss' :
  joined (run t ss).2 = true → joined (run t (ss ++ ss')).2 = true.
Proof.
  rewrite run_app. destruct (run t ss) as [t1 e1].
  destruct (run t1 ss') as [t2 e2]. simpl. intros H.
  by rewrite joined_app, H.
Qed.

(** X5. Once the page is loaded, only a cancellation keeps the bot from
    holding the room: whatever [page.evaluate], [page.reload] and the sleep
    do (return or raise an [Exception]), after four resumptions at most the
    bot has printed that it joined and is in its hold loop or beyond; the
    failures are printed and swallowed. *)
Theorem preferences_never_stop_the_bot (t : task) (ws : list wake) :
  at_pc t = AtSetName →
  must_cancel t = false →
  Forall (λ w, not_cancelled w = true) ws →
  4 ≤ length ws →
  joined (run t (Wake <$> ws)).2 = true.
Proof.
  intros Hpc Hmc Hws Hlen.
  destruct ws as [| w1 [| w2 [| w3 [| w4 rest]]]]; simpl in Hlen; try lia.
  change (Wake <$> w1 :: w2 :: w3 :: w4 :: rest)
    with ([Wake w1; Wake w2; Wake w3; Wake w4] ++ (Wake <$> rest)).
  apply joined_run_prefix.
  apply Forall_cons in Hws as [H1 Hws]. apply Forall_cons in Hws as [H2 Hws].
  apply Forall_cons in Hws as [H3 Hws]. apply Forall_cons in Hws as [H4 _].
  destruct t as [self room display p mc]. simpl in Hpc, Hmc. subst p mc.
  destruct w1 as [| [n1 |]], w2 as [| [n2 |]], w3 as [| [n3 |]], w4 as [| [n4 |]];
    try discriminate; reflexivity.
Qed.

Lemma preferences_never_stop_the_bot_witness :
  let t := (run (new_task (JitsiMeeting_init "https://meet.jit.si") "r" "Bot")
              (replicate 5 (Wake Ok))).1 in
  let ws := [Throw (Exception "PageError"); Throw (Exception "ElementHandleError");
             Ok; Ok] in
  at_pc t = AtSetName ∧ must_cancel t = false
  ∧ Forall (λ w, not_cancelled w = true) ws ∧ 4 ≤ length ws
  ∧ joined (run t (Wake <$> ws)).2 = true.
Proof.
  simpl. split; [reflexivity |]. split; [reflexivity |].
  assert (Hws : Forall (λ w, not_cancelled w = true)
                  [Throw (Exception "PageError");
                   Throw (Exception "ElementHandleError"); Ok; Ok]).
  { repeat constructor. }
  split; [exact Hws |]. split; [simpl; lia |].
  apply (preferences_never_stop_the_bot
           (run (new_task (JitsiMeeting_init "https://meet.jit.si") "r" "Bot")
              (replicate 5 (Wake Ok))).1
           [Throw (Exception "PageError");
            Throw (Exception "ElementHandleError"); Ok; Ok]);
    [reflexivity | reflexivity | exact Hws | simpl; lia].
Defined.

(** X6. The hold loop has no end of its own: a holding bot that nobody
    cancels is still holding after any number of its sixty-second sleeps,
    has done nothing but sleep, and has not closed the browser. *)
Theorem holding_goes_on (t : task) (n : nat) :
  at_pc t = AtHold →
  must_cancel t = false →
  let '(t', evs) := run t (replicate n (Wake Ok)) in
  at_pc t' = AtHold ∧ must_cancel t' = false
  ∧ evs = replicate n (Await (Sleep 60))
  ∧ releases evs = 0.
Proof.
  revert t. induction n as [| n IH]; intros t Hpc Hmc; [done |].
  destruct t as [self room display p mc]. simpl in Hpc, Hmc. subst p mc.
  simpl. unfold step. simpl.
  specialize (IH {| coro_self := self; coro_room := room; coro_display := display;
                    at_pc := AtHold; must_cancel := false |} eq_refl eq_refl).
  destruct (run _ (replicate n (Wake Ok))) as [t' evs].
  destruct IH as (H1 & H2 & H3 & H4). subst evs.
  repeat split; try done.
Qed.

Lemma holding_goes_on_witness :
  let t := (run (new_task (JitsiMeeting_init "https://meet.jit.si") "r" "Bot")
              (replicate 9 (Wake Ok))).1 in
  at_pc t = AtHold ∧ must_cancel t = false
  ∧ at_pc (run t (replicate 3 (Wake Ok))).1 = AtHold.
Proof.
  simpl. split; [reflexivity |]. split; [reflexivity |].
  pose proof (holding_goes_on
                (run (new_task (JitsiMeeting_init "https://meet.jit.si") "r" "Bot")
                   (replicate 9 (Wake Ok))).1 3 eq_refl eq_refl) as H.
  exact (proj1 H).
Defined.

(** X7. A task cancelled before its first turn never runs a line of
    [start_bot_and_hold]: however often [cancel()] was called, its first
    resumption ends it with [CancelledError], and nothing was printed, no
    browser was launched. *)
Theorem cancelled_before_start_does_nothing
    (self : JitsiMeeting) (room_name display_name : string) (n : nat) (wk : wake) :
  let '(t, evs) := run (new_task self room_name display_name)
                     (replicate (S n) CallCancel ++ [Wake wk]) in
  at_pc t = Finished (Raise CancelledError) ∧ evs = [].
Proof. rewrite run_app, run_cancels. done. Qed.

(** ** Sending *)

(** Take a membership in a list written out apart, one element at a
    time. *)
Ltac elem_cases H :=
  repeat match type of H with
         | _ ∈ [] => by apply elem_of_nil in H
         | _ ∈ _ :: _ => apply elem_of_cons in H as [H | H]; [try discriminate H |]
         end.

(** X8. [send_email] keeps to the order of its SMTP calls: the
    credentials are sent only on a connection that has been upgraded with
    STARTTLS, and they are the configured ones; a message is handed over
    only after the login; one call hands over one message at most, however
    many recipients there are; and the "Sent to" line is printed exactly
    when the call returns normally with credentials set. *)
Theorem send_email_keeps_the_smtp_order
    (cfg : settings) (o : oracle) (subject body : string)
    (recipients : list pyval) (attachments : list (string * ics * string))
    (from_name : option string) :
  let '(r, evs) := send_email cfg o subject body recipients attachments from_name in
  let host := SMTP_HOST cfg in
  let port := SMTP_PORT cfg in
  (∀ u p, SmtpLogin u p ∈ evs →
     take 4 evs = [SmtpConnect host port; SmtpEhlo; SmtpStartTls; SmtpLogin u p]
     ∧ SMTP_USER cfg = Some u ∧ SMTP_PASSWORD cfg = Some p)
  ∧ (∀ msg, SmtpSendMessage msg ∈ evs →
       ∃ u p, take 5 evs = [SmtpConnect host port; SmtpEhlo; SmtpStartTls;
                            SmtpLogin u p; SmtpSendMessage msg])
  ∧ length (sent_messages evs) ≤ 1
  ∧ (Print (LogEmailSent recipients host port) ∈ evs
     ↔ r = Return ∧ falsy (SMTP_USER cfg) || falsy (SMTP_PASSWORD cfg) = false).
Proof.
  unfold send_email.
  destruct (falsy (SMTP_USER cfg) || falsy (SMTP_PASSWORD cfg)) eqn:Hcred.
  { simpl. split; [intros u p H; elem_cases H |].
    split; [intros msg H; elem_cases H |]. split; [lia |].
    split; [intros H; elem_cases H | by intros [_ ?]]. }
  assert (∃ u p, SMTP_USER cfg = Some u ∧ SMTP_PASSWORD cfg = Some p) as (u0 & p0 & Hu & Hp).
  { destruct (SMTP_USER cfg) as [u0 |], (SMTP_PASSWORD cfg) as [p0 |];
      simpl in Hcred; rewrite ?orb_true_r in Hcred; try discriminate; eauto. }
  rewrite Hu, Hp. simpl str_opt.
  destruct (compose cfg o subject body recipients attachments from_name) as [e | m];
    (destruct (smtp o) as [| st error] eqn:Hsmtp; [| destruct st]); simpl;
    (split; [intros u p H; elem_cases H; by simplify_eq |]);
    (split; [intros msg H; elem_cases H; simplify_eq; by eauto |]);
    (split; [lia |]);
    (split; [intros H; elem_cases H; by simplify_eq
            | intros [? _]; try discriminate; set_solver]).
Qed.

Lemma send_email_message cfg o subject body recipients attachments from_name msg :
  SmtpSendMessage msg
    ∈ (send_email cfg o subject body recipients attachments from_name).2 →
  ∃ to atts u,
    join ", " recipients = Some to
    ∧ attach attachments = Some atts
    ∧ SMTP_USER cfg = Some u
    ∧ msg = {| Subject := subject;
               From := (or_else from_name (FROM_NAME cfg), u);
               To := to;
               content := body;
               attached := atts |}.
Proof.
  unfold send_email.
  destruct (falsy (SMTP_USER cfg) || falsy (SMTP_PASSWORD cfg)) eqn:Hcred.
  { simpl. intros H. elem_cases H. }
  assert (∃ u, SMTP_USER cfg = Some u) as (u0 & Hu).
  { destruct (SMTP_USER cfg) as [u0 |]; [eauto | discriminate]. }
  destruct (compose cfg o subject body recipients attachments from_name)
    as [e | m] eqn:Hc.
  { simpl. intros H. elem_cases H. }
  apply compose_message in Hc as (to & atts & Hjoin & Hatt & -> & _).
  rewrite Hu. simpl str_opt.
  destruct (smtp o) as [| st error] eqn:Hsmtp; [| destruct st]; simpl;
    intros H; elem_cases H; simplify_eq; eauto 10.
Qed.

(** X9. With credentials set, a recipient that is not a string, or an
    attachment whose MIME type has no slash, makes [send_email] raise
    before it opens a connection: the call causes nothing at all. *)
Theorem send_email_rejects_before_connecting
    (cfg : settings) (o : oracle) (subject body : string)
    (recipients : list pyval) (attachments : list (string * ics * string))
    (from_name : option string) :
  falsy (SMTP_USER cfg) || falsy (SMTP_PASSWORD cfg) = false →
  join ", " recipients = None ∨ attach attachments = None →
  ∃ e, send_email cfg o subject body recipients attachments from_name
       = (Raise e, []).
Proof.
  intros Hcred Hbad. unfold send_email. rewrite Hcred.
  destruct (compose cfg o subject body recipients attachments from_name)
    as [e | m] eqn:Hc; [by eauto |].
  apply compose_message in Hc as (to & atts & Hjoin & Hatt & _).
  destruct Hbad as [Hbad | Hbad]; congruence.
Qed.

Lemma send_email_rejects_before_connecting_witness :
  falsy (SMTP_USER cfg_demo) || falsy (SMTP_PASSWORD cfg_demo) = false
  ∧ join ", " [PStr "b@x.com"; PInt 42] = None
  ∧ ∃ e, send_email cfg_demo oracle_demo "s" "b" [PStr "b@x.com"; PInt 42] [] None
         = (Raise e, []).
Proof.
  split; [reflexivity |]. split; [reflexivity |].
  apply (send_email_rejects_before_connecting cfg_demo oracle_demo "s" "b"
           [PStr "b@x.com"; PInt 42] [] None); [reflexivity | by left].
Defined.

(** X10. What [handle_incident] sends, when it sends: a message from the
    configured sender name and SMTP user, to all recipients in one [To]
    header, with the ticket id and summary as subject and the join URL in
    the text, carrying one attachment [invite.ics] of type text/calendar.
    The calendar event has the subject as summary, the join URL as
    location, starts now and ends thirty minutes later, is organized by the
    SMTP user, and lists every recipient once per occurrence, in order, as
    a required participant. *)
Theorem invite_message_contents
    (cfg : settings) (o : oracle) (payload : gmap string pyval) (w : world)
    (msg : email) :
  let ticket := get payload "ticket_id" in
  let summary := get_or payload "summary" (PStr "") in
  let room := str ticket +:+ "-" +:+ token_hex o in
  let url := room_url (jitsi (responder w)) room in
  let rs := recipients_of cfg (get payload "reporter_email") in
  SmtpSendMessage msg ∈ emitted w (handle_incident cfg o payload w).2 →
  ∃ user cal,
    SMTP_USER cfg = Some user
    ∧ Subject msg = "[SEV-1] " +:+ str ticket +:+ ": " +:+ str summary
    ∧ From msg = (FROM_NAME cfg, user)
    ∧ join ", " rs = Some (To msg)
    ∧ content msg = body_of ticket url
    ∧ attached msg = [("invite.ics", "text", "calendar", cal)]
    ∧ ics_summary cal = Subject msg
    ∧ ics_location cal = url
    ∧ ics_dtstart cal = now o
    ∧ ics_dtend cal = (now o + 1800)%Z
    ∧ ics_uid cal = uuid4 o
    ∧ ics_organizer cal = ("MAILTO:" +:+ user, FROM_NAME cfg, "CHAIR")
    ∧ ics_attendees cal
      = (λ a, ("MAILTO:" +:+ str a, str a, "REQ-PARTICIPANT")) <$> rs.
Proof.
  intros ticket summary room url rs.
  rewrite handle_incident_emitted. fold ticket summary room url rs.
  rewrite !elem_of_app. intros [H | [H | H]].
  - elem_cases H.
  - unfold invite in H. destruct rs as [| r0 rs'] eqn:Ers; [simpl in H; elem_cases H |].
    unfold send_invites_with_ics in H.
    match type of H with
    | context [send_email ?a ?b ?c ?d ?e ?f ?g] =>
        pose proof (send_email_message a b c d e f g msg) as Hmsg;
        destruct (send_email a b c d e f g) as [res evs]
    end.
    simpl in H, Hmsg. apply elem_of_cons in H as [H | H]; [discriminate |].
    destruct (Hmsg H) as (to & atts & u & Hjoin & Hatt & Hu & ->).
    injection Hatt as <-. rewrite Hu. simpl.
    exists u. eexists.
    destruct (String.eqb (FROM_NAME cfg) ""); repeat split; try reflexivity; done.
  - destruct (invite _ _ _ _ _ _).1; elem_cases H.
Qed.

Lemma invite_message_contents_witness :
  ∃ msg,
    SmtpSendMessage msg
      ∈ emitted (boot cfg_demo)
          (handle_incident cfg_demo oracle_demo (dict ticket_demo) (boot cfg_demo)).2
    ∧ ∃ user cal,
        SMTP_USER cfg_demo = Some user
        ∧ Subject msg = "[SEV-1] INC1001: DB cluster down"
        ∧ attached msg = [("invite.ics", "text", "calendar", cal)].
Proof.
  eexists. split; [eapply (list_elem_of_lookup_2 _ 8); reflexivity |].
  edestruct (invite_message_contents cfg_demo oracle_demo (dict ticket_demo)
               (boot cfg_demo))
    as (user & cal & Hu & Hs & _ & _ & _ & Ha & _);
    [eapply (list_elem_of_lookup_2 _ 8); reflexivity |].
  exists user, cal. split; [exact Hu |]. split; [exact Hs | exact Ha].
Defined.

(** ** One call, two branches *)

(** X11. The task stored under the ticket id is the bot for the room
    the call announced: looked up through [bot_tasks], it is the task just
    created, and its first three resumptions launch the browser, open a
    page and navigate to the very URL [handle_incident] printed (the one
    the invite carries). *)
Theorem stored_task_opens_the_announced_url
    (cfg : settings) (o : oracle) (payload : gmap string pyval) (w : world) :
  let ticket := get payload "ticket_id" in
  let room := str ticket +:+ "-" +:+ token_hex o in
  let url := room_url (jitsi (responder w)) room in
  let w' := (handle_incident cfg o payload w).2 in
  Print (LogStartingBot room url) ∈ emitted w w'
  ∧ ∃ tid t,
      bot_tasks (responder w') !! ticket = Some tid
      ∧ tasks w' !! tid = Some t
      ∧ coro_display t = BOT_DISPLAY_NAME cfg
      ∧ (run t [Wake Ok; Wake Ok; Wake Ok]).2
        = [Print (LogLaunching url); Await Launch; Await NewPage;
           SetNavigationTimeout 60000; Await (Goto url)].
Proof.
  intros ticket room url w'. unfold w'. split.
  - rewrite handle_incident_emitted. fold ticket room url.
    apply elem_of_app. left. apply list_elem_of_further, list_elem_of_here.
  - exists (length (tasks w)),
      (new_task (jitsi (responder w)) room (BOT_DISPLAY_NAME cfg)).
    rewrite handle_incident_bot_tasks, handle_incident_tasks. fold ticket room.
    split; [apply lookup_insert_eq |].
    split; [by rewrite lookup_app_r, Nat.sub_diag by lia |].
    done.
Qed.

Lemma invite_never_prints_completed cfg o ticket summary url rs ticket' :
  Print (LogCompleted ticket') ∉ (invite cfg o ticket summary url rs).2.
Proof.
  unfold invite. destruct rs as [| r rs]; [simpl; intros H; elem_cases H |].
  unfold send_invites_with_ics.
  match goal with
  | |- context [send_email ?a ?b ?c ?d ?e ?f ?g] =>
      pose proof (send_email_events a b c d e f g) as Hev;
      destruct (send_email a b c d e f g) as [res evs]
  end.
  simpl in *. intros H. apply elem_of_cons in H as [H | H]; [discriminate |].
  rewrite Forall_forall in Hev. by apply Hev in H.
Qed.

(** X12. [handle_incident] can fail only in [send_email], and a failure
    there undoes nothing: the call returns normally exactly when it prints
    its closing "Completed" line; if it raises, the credentials were set
    and there was a recipient, and the bot task is created and stored all
    the same. *)
Theorem dispatch_failure_leaves_the_bot
    (cfg : settings) (o : oracle) (payload : gmap string pyval) (w : world) :
  let ticket := get payload "ticket_id" in
  let room := str ticket +:+ "-" +:+ token_hex o in
  let rs := recipients_of cfg (get payload "reporter_email") in
  let rw := handle_incident cfg o payload w in
  (rw.1 = Return ↔ Print (LogCompleted ticket) ∈ emitted w rw.2)
  ∧ ∀ e, rw.1 = Raise e →
      falsy (SMTP_USER cfg) || falsy (SMTP_PASSWORD cfg) = false
      ∧ rs ≠ []
      ∧ bot_tasks (responder rw.2) !! ticket = Some (length (tasks w))
      ∧ tasks rw.2 !! length (tasks w)
        = Some (new_task (jitsi (responder w)) room (BOT_DISPLAY_NAME cfg)).
Proof.
  intros ticket room rs rw. unfold rw. split.
  - rewrite handle_incident_result, handle_incident_emitted.
    fold ticket room rs. rewrite !elem_of_app.
    pose proof (invite_never_prints_completed cfg o ticket
                  (get_or payload "summary" (PStr ""))
                  (room_url (jitsi (responder w)) room) rs ticket) as Hnot.
    destruct (invite _ _ _ _ _ _) as [r evs]. simpl in *. split.
    + intros ->. right. right. apply list_elem_of_here.
    + intros [H | [H | H]]; [elem_cases H | done |].
      destruct r; [done | elem_cases H].
  - intros e He.
    rewrite handle_incident_bot_tasks, handle_incident_tasks. fold ticket room.
    rewrite lookup_insert_eq, lookup_app_r, Nat.sub_diag by lia.
    destruct (falsy (SMTP_USER cfg) || falsy (SMTP_PASSWORD cfg)) eqn:Hcred.
    { destruct (emitted_without_network cfg o payload w Hcred) as [Hret _].
      congruence. }
    split; [done |]. split; [| done].
    intros Hrs. rewrite handle_incident_result in He. fold rs in He.
    rewrite Hrs in He. discriminate.
Qed.

Lemma dispatch_failure_leaves_the_bot_witness :
  let o := {| token_bytes := [x0a; x1b; x2c; x3d]%byte; now := 0; utcnow := 0;
              uuid4 := "u"; smtp := FailsAt SConnect "ConnectionRefusedError" |} in
  let rw := handle_incident cfg_demo o (dict ticket_demo) (boot cfg_demo) in
  rw.1 = Raise (Exception "ConnectionRefusedError")
  ∧ bot_tasks (responder rw.2) !! get (dict ticket_demo) "ticket_id" = Some 0.
Proof.
  simpl. split; [reflexivity |].
  destruct (dispatch_failure_leaves_the_bot cfg_demo
              {| token_bytes := [x0a; x1b; x2c; x3d]%byte; now := 0; utcnow := 0;
                 uuid4 := "u"; smtp := FailsAt SConnect "ConnectionRefusedError" |}
              (dict ticket_demo) (boot cfg_demo)) as [_ H].
  destruct (H (Exception "ConnectionRefusedError") eq_refl) as (_ & _ & Hbot & _).
  exact Hbot.
Defined.

(** ** The process over time *)

Lemma accepted_app acts acts' : accepted (acts ++ acts') = accepted acts ++ accepted acts'.
Proof.
  induction acts as [| [o p | i wk] acts IH]; simpl; [done | | done].
  destruct (severity p =? 1)%Z; [by rewrite IH | done].
Qed.

Lemma step_room t wk : coro_room (step t wk).1 = coro_room t.
Proof. unfold step. by destruct (start_bot_and_hold _ _ _ _ _). Qed.

Lemma turn_rooms i wk w : coro_room <$> tasks (turn i wk w) = coro_room <$> tasks w.
Proof.
  unfold turn. destruct (tasks w !! i) as [t |] eqn:E; [| done].
  pose proof (step_room t wk) as Hroom.
  destruct (step t wk) as [t' evs]. simpl in *.
  rewrite list_fmap_insert, Hroom. apply list_insert_id.
  by rewrite list_lookup_fmap, E.
Qed.

Lemma get_dict_ticket_id p : get (dict p) "ticket_id" = PStr (ticket_id p).
Proof. unfold get, dict. by rewrite lookup_insert_eq. Qed.

(** X13. From start-up on, whatever requests come in and whatever
    turns the event loop gives: there is one task per accepted (Sev-1)
    request, in order, each for the room named after its ticket id and
    token; and [bot_tasks] holds, for every ticket id that was ever
    accepted, the task of the latest request for it, and nothing else. No
    entry is ever removed, and the tasks of earlier requests for the same
    id are out of its reach for good. *)
Theorem bot_tasks_holds_latest_task_per_ticket (cfg : settings) (acts : list action) :
  let w := serve cfg acts (boot cfg) in
  let posts := accepted acts in
  (coro_room <$> tasks w)
  = (λ '(o, p), ticket_id p +:+ "-" +:+ token_hex o) <$> posts
  ∧ ∀ (k : pyval) (i : nat),
      bot_tasks (responder w) !! k = Some i
      ↔ ∃ o p, posts !! i = Some (o, p)
               ∧ k = PStr (ticket_id p)
               ∧ ∀ j o' p', i < j → posts !! j = Some (o', p') →
                            ticket_id p' ≠ ticket_id p.
Proof.
  induction acts as [| a acts IH] using rev_ind.
  { simpl. split; [done |]. intros k i. rewrite lookup_empty. split; [done |].
    by intros (o & p & H & _). }
  simpl in *. unfold serve in *. rewrite foldl_app, accepted_app. simpl.
  set (w := foldl (λ w' a0, act cfg a0 w') (boot cfg) acts) in *.
  destruct IH as [IHrooms IHmap].
  destruct a as [o p | i0 wk]; simpl.
  2: { rewrite app_nil_r, turn_rooms, turn_responder. by split. }
  unfold post_ticket, create_ticket.
  destruct (severity p =? 1)%Z eqn:Hsev; simpl; [| rewrite app_nil_r; by split].
  set (posts := accepted acts) in *.
  assert (Hlen : length (tasks w) = length posts).
  { apply (f_equal length) in IHrooms. by rewrite !length_fmap in IHrooms. }
  rewrite handle_incident_tasks, handle_incident_bot_tasks, get_dict_ticket_id.
  rewrite Hlen. split.
  { rewrite !fmap_app, IHrooms. done. }
  intros k i. split.
  - intros Hk. destruct (decide (k = PStr (ticket_id p))) as [-> | Hne].
    + rewrite lookup_insert_eq in Hk. injection Hk as <-.
      exists o, p. split; [by rewrite lookup_app_r, Nat.sub_diag by lia |].
      split; [done |]. intros j o' p' Hj Hp'.
      apply lookup_lt_Some in Hp'. rewrite length_app in Hp'. simpl in Hp'. lia.
    + rewrite lookup_insert_ne in Hk by done.
      apply IHmap in Hk as (o0 & p0 & Hi & -> & Hlater).
      pose proof (lookup_lt_Some _ _ _ Hi) as Hlt.
      exists o0, p0. split; [by rewrite lookup_app_l by lia |].
      split; [done |]. intros j o' p' Hj Hp'.
      destruct (decide (j < length posts)) as [Hjlt | Hjge].
      * rewrite lookup_app_l in Hp' by lia. by eapply Hlater.
      * pose proof (lookup_lt_Some _ _ _ Hp') as Hj'.
        rewrite length_app in Hj'. simpl in Hj'.
        replace j with (length posts) in Hp' by lia.
        rewrite lookup_app_r, Nat.sub_diag in Hp' by lia.
        injection Hp' as <- <-. congruence.
  - intros (o0 & p0 & Hi & -> & Hlater).
    pose proof (lookup_lt_Some _ _ _ Hi) as Hlt.
    rewrite length_app in Hlt. simpl in Hlt.
    destruct (decide (i = length posts)) as [-> | Hne].
    + rewrite lookup_app_r, Nat.sub_diag in Hi by lia.
      injection Hi as <- <-. apply lookup_insert_eq.
    + rewrite lookup_app_l in Hi by lia.
      assert (ticket_id p ≠ ticket_id p0) as Hdiff.
      { apply (Hlater (length posts) o p); [lia |].
        by rewrite lookup_app_r, Nat.sub_diag by lia. }
      rewrite lookup_insert_ne by congruence.
      apply IHmap. exists o0, p0. split; [done |]. split; [done |].
      intros j o' p' Hj Hp'. apply (Hlater j o' p' Hj).
      rewrite lookup_app_l; [done |]. by eapply lookup_lt_Some.
Qed.

(** ** The configured responders *)

Lemma lstrip_ws_fix s : starts_with_space s = false → lstrip_ws s = s.
Proof.
  destruct s as [| c [| d [| e r3]]]; simpl; try done.
  - by destruct (ws1 c).
  - by destruct (ws1 c), (ws2 c d).
  - by destruct (ws1 c), (ws2 c d), (ws3 c d e).
Qed.

(** Induction along the calls of [lstrip_ws]. *)
Lemma lstrip_ws_ind (P : string → string → Prop) :
  (∀ c r t, P r t → P (String c r) t) →
  (∀ s, starts_with_space s = false → P s s) →
  ∀ s, P s (lstrip_ws s).
Proof.
  intros Hskip Hstop s.
  assert (H : ∀ n s, String.length s ≤ n → P s (lstrip_ws s)).
  { clear s. induction n as [| n IH]; intros s Hlen.
    - destruct s; [by apply Hstop | simpl in Hlen; lia].
    - destruct (starts_with_space s) eqn:E.
      2: { rewrite lstrip_ws_fix by done. by apply Hstop. }
      destruct s as [| c [| d [| e r3]]]; simpl in *; try done.
      + destruct (ws1 c); [by apply Hskip, Hstop | done].
      + destruct (ws1 c); [apply Hskip, IH; simpl; lia |].
        destruct (ws2 c d); [by apply Hskip, Hskip, Hstop | done].
      + destruct (ws1 c); [apply Hskip, IH; simpl; lia |].
        destruct (ws2 c d); [apply Hskip, Hskip, IH; simpl; lia |].
        destruct (ws3 c d e); [apply Hskip, Hskip, Hskip, IH; simpl; lia | done]. }
  by apply (H (String.length s)).
Qed.

Lemma lstrip_ws_head s : starts_with_space (lstrip_ws s) = false.
Proof.
  apply (lstrip_ws_ind (λ _ t, starts_with_space t = false)).
  - intros c r t H. exact H.
  - intros t H. exact H.
Qed.

Lemma lstrip_ws_contains x s :
  contains_char x (lstrip_ws s) = true → contains_char x s = true.
Proof.
  apply (lstrip_ws_ind (λ s t, contains_char x t = true → contains_char x s = true)).
  - intros c r t IH H. simpl. rewrite IH by done. apply orb_true_r.
  - intros t _ H. exact H.
Qed.

Lemma rstrip_ws_cons c r :
  rstrip_ws (String c r)
  = if is_space (String c (rstrip_ws r)) then EmptyString
    else String c (rstrip_ws r).
Proof. reflexivity. Qed.

Lemma rstrip_ws_contains x s :
  contains_char x (rstrip_ws s) = true → contains_char x s = true.
Proof.
  induction s as [| c s IH]; [done |].
  rewrite rstrip_ws_cons. destruct (is_space (String c (rstrip_ws s))); [done |].
  simpl. intros H. apply orb_true_iff in H as [H | H]; [by rewrite H |].
  rewrite IH by done. apply orb_true_r.
Qed.

Lemma rstrip_ws_idem s : rstrip_ws (rstrip_ws s) = rstrip_ws s.
Proof.
  induction s as [| c s IH]; [done |].
  rewrite rstrip_ws_cons. destruct (is_space (String c (rstrip_ws s))) eqn:E; [done |].
  by rewrite rstrip_ws_cons, IH, E.
Qed.

Lemma rstrip_ws_head s :
  starts_with_space s = false → starts_with_space (rstrip_ws s) = false.
Proof.
  destruct s as [| c [| d [| e r3]]]; try done.
  - simpl. destruct (ws1 c) eqn:E; [done |]. simpl. by rewrite E.
  - intros H. simpl in H. apply orb_false_iff in H as [H1 H2].
    rewrite orb_false_r in H2.
    rewrite !rstrip_ws_cons. change (rstrip_ws "") with "".
    destruct (is_space (String d "")).
    + destruct (is_space (String c "")); [done |]. simpl. by rewrite H1.
    + destruct (is_space (String c (String d ""))); [done |].
      simpl. by rewrite H1, H2.
  - intros H. simpl in H. apply orb_false_iff in H as [H1 H].
    apply orb_false_iff in H as [H2 H3].
    rewrite !rstrip_ws_cons.
    destruct (is_space (String e (rstrip_ws r3))).
    + destruct (is_space (String d "")).
      * destruct (is_space (String c "")); [done |]. simpl. by rewrite H1.
      * destruct (is_space (String c (String d ""))); [done |].
        simpl. by rewrite H1, H2.
    + destruct (is_space (String d (String e (rstrip_ws r3)))).
      * destruct (is_space (String c "")); [done |]. simpl. by rewrite H1.
      * destruct (is_space (String c (String d (String e (rstrip_ws r3)))));
          [done |]. simpl. by rewrite H1, H2, H3.
Qed.

Lemma strip_idem s : strip (strip s) = strip s.
Proof.
  unfold strip.
  rewrite (lstrip_ws_fix (rstrip_ws (lstrip_ws s)))
    by apply rstrip_ws_head, lstrip_ws_head.
  apply rstrip_ws_idem.
Qed.

Lemma strip_contains x s : contains_char x (strip s) = true → contains_char x s = true.
Proof. intros H. by apply lstrip_ws_contains, rstrip_ws_contains. Qed.

Lemma split_comma_no_comma s :
  Forall (λ e, contains_char "," e = false) (split_comma s).
Proof.
  induction s as [| c s IH]; [by repeat constructor |].
  simpl. destruct (Ascii.eqb c ",") eqn:E; [by constructor |].
  destruct (split_comma s) as [| x xs]; [by repeat constructor; simpl; rewrite E |].
  apply Forall_cons in IH as [Hx Hxs]. constructor; [| done].
  simpl. by rewrite E, Hx.
Qed.

(** X14. Whatever the environment variable holds, [DEV_EMAILS] is a list
    of clean addresses: no entry is empty, none contains a comma, none has
    white space around it. Empty pieces (two commas in a row, a trailing
    comma, blanks only) are dropped. *)
Theorem dev_emails_are_clean (env : option string) :
  Forall clean_address (dev_emails_from env).
Proof.
  unfold dev_emails_from. apply Forall_fmap, Forall_forall.
  intros e He. apply list_elem_of_filter in He as [Hne He].
  pose proof (split_comma_no_comma (default "" env)) as Hcomma.
  rewrite Forall_forall in Hcomma. specialize (Hcomma e He).
  split; [done |]. split; [| apply strip_idem].
  destruct (contains_char "," (strip e)) eqn:E; [| done].
  apply strip_contains in E. congruence.
Qed.

Lemma split_comma_single x : contains_char "," x = false → split_comma x = [x].
Proof.
  induction x as [| c x IH]; [done |].
  simpl. intros H. apply orb_false_iff in H as [Hc Hx].
  by rewrite Hc, IH.
Qed.

Lemma split_comma_app x rest :
  contains_char "," x = false →
  split_comma (x +:+ String "," rest) = x :: split_comma rest.
Proof.
  induction x as [| c x IH]; [done |].
  intros H. simpl in H. apply orb_false_iff in H as [Hc Hx].
  change (String c x +:+ String "," rest) with (String c (x +:+ String "," rest)).
  simpl. by rewrite Hc, IH.
Qed.

Lemma split_comma_concat l :
  l ≠ [] → Forall (λ e, contains_char "," e = false) l →
  split_comma (String.concat "," l) = l.
Proof.
  induction l as [| x l IH]; [done |]. intros _ H.
  apply Forall_cons in H as [Hx Hl].
  destruct l as [| y l]; [by apply split_comma_single |].
  change (String.concat "," (x :: y :: l))
    with (x +:+ String "," (String.concat "," (y :: l))).
  by rewrite split_comma_app, IH.
Qed.

(** X15. Writing a list of clean addresses with commas between them and
    reading it back as [DEV_EMAILS] gives the list again, in order and with
    its repetitions. *)
Theorem dev_emails_round_trip (l : list string) :
  Forall clean_address l →
  dev_emails_from (Some (String.concat "," l)) = l.
Proof.
  intros Hl. unfold dev_emails_from. simpl.
  destruct l as [| x l]; [done |].
  rewrite split_comma_concat;
    [| done | eapply Forall_impl; [exact Hl | by intros e (_ & ? & _)]].
  induction Hl as [| e l' (Hne & _ & Hstrip) Hl' IH]; [done |].
  rewrite filter_cons_True by congruence.
  rewrite fmap_cons, Hstrip. f_equal. exact IH.
Qed.

Lemma dev_emails_round_trip_witness :
  Forall clean_address ["b@x.com"; "ops@x.com"]
  ∧ dev_emails_from (Some "b@x.com,ops@x.com") = ["b@x.com"; "ops@x.com"].
Proof.
  assert (H : Forall clean_address ["b@x.com"; "ops@x.com"]).
  { repeat constructor; done. }
  split; [exact H |].
  apply (dev_emails_round_trip ["b@x.com"; "ops@x.com"] H).
Defined.

Example dev_emails_edge_cases :
  dev_emails_from None = []
  ∧ dev_emails_from (Some "") = []
  ∧ dev_emails_from (Some " , ,") = []
  ∧ dev_emails_from (Some " a@x.com , ,b@x.com,, ") = ["a@x.com"; "b@x.com"].
Proof. repeat split. Qed.

(** ** Keys the payload does not have *)

(** X16. A key the payload lacks is read as its default, and the call
    goes on: without "ticket_id" the id is [None], so the room is named
    "None-" and the token and the task is stored under the key [None];
    without "summary" the summary is the empty string; without
    "reporter_email" there is no reporter and the recipients are the
    configured responders. *)
Theorem missing_keys_are_read_as_defaults
    (cfg : settings) (o : oracle) (payload : gmap string pyval) (w : world) :
  handle_incident cfg o (delete "ticket_id" payload) w
  = handle_incident cfg o (<["ticket_id" := PNone]> payload) w
  ∧ handle_incident cfg o (delete "summary" payload) w
    = handle_incident cfg o (<["summary" := PStr ""]> payload) w
  ∧ handle_incident cfg o (delete "reporter_email" payload) w
    = handle_incident cfg o (<["reporter_email" := PNone]> payload) w
  ∧ (let w' := (handle_incident cfg o (delete "ticket_id" payload) w).2 in
     bot_tasks (responder w') !! PNone = Some (length (tasks w))
     ∧ coro_room <$> tasks w' !! length (tasks w) = Some ("None-" +:+ token_hex o))
  ∧ recipients_of cfg (get (delete "reporter_email" payload) "reporter_email")
    = PStr <$> DEV_EMAILS cfg.
Proof.
  assert (Hdel : ∀ k, get (delete k payload) k = PNone).
  { intros k. unfold get. by rewrite lookup_delete_eq. }
  assert (Hins : ∀ k v, get (<[k := v]> payload) k = v).
  { intros k v. unfold get. by rewrite lookup_insert_eq. }
  split; [| split; [| split; [| split]]].
  - apply handle_incident_ext.
    + by rewrite Hdel, Hins.
    + by rewrite get_or_delete_ne, get_or_insert_ne.
    + by rewrite get_delete_ne, get_insert_ne.
  - apply handle_incident_ext.
    + by rewrite get_delete_ne, get_insert_ne.
    + unfold get_or. by rewrite lookup_delete_eq, lookup_insert_eq.
    + by rewrite get_delete_ne, get_insert_ne.
  - apply handle_incident_ext.
    + by rewrite get_delete_ne, get_insert_ne.
    + by rewrite get_or_delete_ne, get_or_insert_ne.
    + by rewrite Hdel, Hins.
  - simpl. rewrite handle_incident_bot_tasks, handle_incident_tasks, Hdel.
    split; [apply lookup_insert_eq |].
    by rewrite lookup_app_r, Nat.sub_diag by lia.
  - by rewrite Hdel.
Qed.

(** ** Concrete runs of the properties above *)

Lemma finished_run_closes_iff_joined_witness :
  let run1 := run (new_task (JitsiMeeting_init "https://meet.jit.si") "r" "Bot")
                navigation_times_out in
  at_pc run1.1 = Finished (Raise (Exception "TimeoutError"))
  ∧ releases run1.2 = 0.
Proof.
  split; [reflexivity |].
  exact (finished_run_closes_iff_joined (JitsiMeeting_init "https://meet.jit.si")
           "r" "Bot" navigation_times_out (Raise (Exception "TimeoutError"))
           eq_refl).
Defined.

Lemma cancelled_while_holding_closes_once_witness :
  let t := (run (new_task (JitsiMeeting_init "https://meet.jit.si") "r" "Bot")
              (replicate 9 (Wake Ok))).1 in
  at_pc t = AtHold
  ∧ releases (run t (replicate 3 CallCancel ++ [Wake Ok; Wake Ok])).2 = 1.
Proof.
  split; [reflexivity |].
  pose proof (cancelled_while_holding_closes_once
                (run (new_task (JitsiMeeting_init "https://meet.jit.si") "r" "Bot")
                   (replicate 9 (Wake Ok))).1 2 Ok eq_refl) as H.
  exact (proj2 (proj2 H)).
Defined.

(** ** Once per call *)

Lemma send_email_sent_count cfg o subject body recipients attachments from_name :
  let '(r, evs) := send_email cfg o subject body recipients attachments from_name in
  created evs = []
  ∧ length (sent_messages evs) ≤ 1
  ∧ (r = Return →
     falsy (SMTP_USER cfg) || falsy (SMTP_PASSWORD cfg) = false →
     length (sent_messages evs) = 1).
Proof.
  unfold send_email.
  destruct (falsy (SMTP_USER cfg) || falsy (SMTP_PASSWORD cfg)) eqn:Hcred.
  { simpl. split; [done |]. split; [lia | done]. }
  destruct (compose cfg o subject body recipients attachments from_name) as [e | m];
    (destruct (smtp o) as [| st error] eqn:Hsmtp; [| destruct st]); simpl;
    (split; [done |]); (split; [lia |]); done.
Qed.

Lemma created_app evs evs' : created (evs ++ evs') = created evs ++ created evs'.
Proof. apply omap_app. Qed.

Lemma sent_messages_app evs evs' :
  sent_messages (evs ++ evs') = sent_messages evs ++ sent_messages evs'.
Proof. apply omap_app. Qed.

Lemma invite_sent_count cfg o ticket summary url rs :
  let '(r, evs) := invite cfg o ticket summary url rs in
  created evs = []
  ∧ length (sent_messages evs) ≤ 1
  ∧ (r = Return →
     falsy (SMTP_USER cfg) || falsy (SMTP_PASSWORD cfg) = false →
     rs ≠ [] →
     length (sent_messages evs) = 1).
Proof.
  unfold invite. destruct rs as [| r0 rs'].
  { simpl. split; [done |]. split; [lia | done]. }
  unfold send_invites_with_ics.
  match goal with
  | |- context [send_email ?a ?b ?c ?d ?e ?f ?g] =>
      pose proof (send_email_sent_count a b c d e f g) as Hcount;
      destruct (send_email a b c d e f g) as [res evs]
  end.
  destruct Hcount as (Hcreated & Hle & Heq).
  split; [exact Hcreated |]. split; [exact Hle |].
  intros Hres Hcred _. by apply Heq.
Qed.

(** X20. One call of [handle_incident] creates exactly one task and hands
    at most one message to the mail server; when it returns normally with
    credentials set and a recipient, it has handed over exactly one. *)
Theorem one_task_one_message_per_call
    (cfg : settings) (o : oracle) (payload : gmap string pyval) (w : world) :
  let rw := handle_incident cfg o payload w in
  let rs := recipients_of cfg (get payload "reporter_email") in
  created (emitted w rw.2) = [length (tasks w)]
  ∧ length (sent_messages (emitted w rw.2)) ≤ 1
  ∧ (rw.1 = Return →
     falsy (SMTP_USER cfg) || falsy (SMTP_PASSWORD cfg) = false →
     rs ≠ [] →
     length (sent_messages (emitted w rw.2)) = 1).
Proof.
  intros rw rs. unfold rw.
  rewrite handle_incident_result, handle_incident_emitted. fold rs.
  rewrite !created_app, !sent_messages_app.
  match goal with
  | |- context [invite ?a ?b ?c ?d ?e ?f] =>
      pose proof (invite_sent_count a b c d e f) as Hcount;
      destruct (invite a b c d e f) as [res evs]
  end.
  destruct Hcount as (Hcreated & Hle & Heq). simpl fst. simpl snd.
  rewrite Hcreated.
  assert (Hlast : created (match res with
                           | Return => [Print (LogCompleted (get payload "ticket_id"))]
                           | Raise _ => []
                           end) = []
                  ∧ sent_messages (match res with
                                   | Return => [Print (LogCompleted (get payload "ticket_id"))]
                                   | Raise _ => []
                                   end) = []).
  { by destruct res. }
  destruct Hlast as [-> ->]. rewrite !app_nil_r.
  split; [done |]. split; [exact Hle |]. exact Heq.
Qed.

Lemma one_task_one_message_per_call_witness :
  let rw := handle_incident cfg_demo oracle_demo (dict ticket_demo) (boot cfg_demo) in
  rw.1 = Return
  ∧ falsy (SMTP_USER cfg_demo) || falsy (SMTP_PASSWORD cfg_demo) = false
  ∧ recipients_of cfg_demo (get (dict ticket_demo) "reporter_email") ≠ []
  ∧ length (sent_messages (emitted (boot cfg_demo) rw.2)) = 1.
Proof.
  simpl. split; [reflexivity |]. split; [reflexivity |]. split; [done |].
  destruct (one_task_one_message_per_call cfg_demo oracle_demo (dict ticket_demo)
              (boot cfg_demo)) as (_ & _ & H).
  apply H; [reflexivity | reflexivity | done].
Defined.

Lemma send_email_keeps_the_smtp_order_witness :
  let evs := (send_email cfg_demo oracle_demo "subject" "body"
                [PStr "b@x.com"; PStr "a@x.com"] [] None).2 in
  SmtpLogin "bot@x.com" "secret" ∈ evs
  ∧ take 4 evs = [SmtpConnect "smtp.gmail.com" 587; SmtpEhlo; SmtpStartTls;
                  SmtpLogin "bot@x.com" "secret"].
Proof.
  assert (Hin : SmtpLogin "bot@x.com" "secret"
                ∈ (send_email cfg_demo oracle_demo "subject" "body"
                     [PStr "b@x.com"; PStr "a@x.com"] [] None).2).
  { eapply (list_elem_of_lookup_2 _ 3). reflexivity. }
  split; [exact Hin |].
  pose proof (send_email_keeps_the_smtp_order cfg_demo oracle_demo "subject" "body"
                [PStr "b@x.com"; PStr "a@x.com"] [] None) as H.
  destruct (send_email cfg_demo oracle_demo "subject" "body"
              [PStr "b@x.com"; PStr "a@x.com"] [] None) as [r evs].
  destruct H as (H & _). exact (proj1 (H _ _ Hin)).
Defined.
